(** * AI Sprint Planner: the prediction engine and the chat resolver

    A shallow embedding of [src/model.js] (text normalisation, complexity
    score, story points, hour estimate, rationale, prediction) and of the
    two request handlers of [server.js] that carry logic ([/api/predict]
    per row, [/api/chat]).

    Conventions of the embedding.
    - A JavaScript string is a [string]: one [ascii] per code unit, read as
      Latin-1 (code units 0..255).  Texts with code units above 255 are
      outside the model.
    - A JavaScript number is a rational ([Q]) where the code computes with
      fractions, and an integer ([Z], [nat]) where it counts.  The two
      rounding steps of the code ([Math.round], [toFixed(2)]) are modelled
      exactly on the rationals.  Doubles carry errors of the order of
      1e-16 that the rationals do not: a score that falls exactly on a
      threshold of [toFib] may land in the next bucket in JavaScript.  No
      statement below depends on such a tie; the hour estimate agrees with
      the doubles on all 48 combinations of base value and multipliers.
    - Regular expressions that are plain alternations of literals are
      modelled as "one of the literals occurs in the text". *)

From Stdlib Require Import Bool Arith ZArith QArith Qround Lia Lqa List.
From Stdlib Require Import Ascii String DecimalString.
From Stdlib Require Import Sorted Permutation DecimalPos.
Import ListNotations.

Open Scope string_scope.

(* ================================================================== *)
(** ** JavaScript string primitives used by the program                *)
(* ================================================================== *)

Module Js.

Definition code (c : ascii) : N := N_of_ascii c.

Definition in_range (lo hi : N) (c : ascii) : bool :=
  ((lo <=? code c) && (code c <=? hi))%N.

(** [String.prototype.toLowerCase] on Latin-1: A-Z, and U+00C0..U+00DE
    except the multiplication sign U+00D7, move up by 32. *)
Definition is_upper (c : ascii) : bool :=
  in_range 65 90 c || (in_range 192 222 c && negb (code c =? 215)%N).

Definition toLowerChar (c : ascii) : ascii :=
  if is_upper c then ascii_of_N (code c + 32) else c.

Fixpoint toLowerCase (s : string) : string :=
  match s with
  | EmptyString => EmptyString
  | String c r => String (toLowerChar c) (toLowerCase r)
  end.

(** [s.startsWith(k)] *)
Fixpoint startsWith (k s : string) : bool :=
  match k, s with
  | EmptyString, _ => true
  | String a k', String b s' => Ascii.eqb a b && startsWith k' s'
  | String _ _, EmptyString => false
  end.

(** [s.includes(k)]; also [/k/.test(s)] for a literal [k]. *)
Fixpoint includes (k s : string) : bool :=
  startsWith k s ||
  match s with
  | EmptyString => false
  | String _ s' => includes k s'
  end.

(** [/k1|k2|...|kn/.test(s)] for literals [k1..kn]. *)
Definition test_any (alternatives : list string) (s : string) : bool :=
  existsb (fun k => includes k s) alternatives.

(** White space of [\s] and of [trim()] within Latin-1:
    TAB, LF, VT, FF, CR, SPACE, NBSP. *)
Definition is_space (c : ascii) : bool :=
  in_range 9 13 c || (code c =? 32)%N || (code c =? 160)%N.

Definition is_digit (c : ascii) : bool := in_range 48 57 c.

Fixpoint trimStart (s : string) : string :=
  match s with
  | EmptyString => EmptyString
  | String c r => if is_space c then trimStart r else s
  end.

Fixpoint trimEnd (s : string) : string :=
  match s with
  | EmptyString => EmptyString
  | String c r =>
      match trimEnd r with
      | EmptyString => if is_space c then EmptyString else String c EmptyString
      | r' => String c r'
      end
  end.

Definition trim (s : string) : string := trimEnd (trimStart s).

(** [arr.join(sep)] *)
Fixpoint join (sep : string) (l : list string) : string :=
  match l with
  | [] => EmptyString
  | [t] => t
  | t :: ts => t ++ sep ++ join sep ts
  end.

(** [s.split(sep)] for a one-character separator. *)
Fixpoint split (sep : ascii) (s : string) : list string :=
  match s with
  | EmptyString => [EmptyString]
  | String c r =>
      if Ascii.eqb c sep then EmptyString :: split sep r
      else match split sep r with
           | t :: ts => String c t :: ts
           | [] => [String c EmptyString]
           end
  end.

(** [s.slice(n)] *)
Fixpoint drop (n : nat) (s : string) : string :=
  match n, s with
  | O, _ => s
  | S n', String _ r => drop n' r
  | S _, EmptyString => EmptyString
  end.

(** Decimal rendering of an integer, as a template literal does. *)
Definition show_int (z : Z) : string := NilEmpty.string_of_int (Z.to_int z).

(** Characters that a Rocq string literal cannot hold directly. *)
Definition nl : string := String (ascii_of_nat 10) EmptyString.
Definition dquote : string := String (ascii_of_nat 34) EmptyString.

(** [Math.max], [Math.min], [Math.round] (halves go up) and
    [Number(x.toFixed(2))] (the nearest hundredth, halves go up). *)
Definition Math_max (a b : Q) : Q := if Qle_bool a b then b else a.
Definition Math_min (a b : Q) : Q := if Qle_bool a b then a else b.
Definition Math_round (x : Q) : Z := Qfloor (x + (1 # 2)).
Definition toFixed2 (x : Q) : Q := Qfloor (x * 100 + (1 # 2)) # 100.

End Js.

(* ================================================================== *)
(** ** The tokenizer of the [natural] package                          *)
(* ================================================================== *)

(** Modelled from the spec: the tokenizer, [natural.WordPunctTokenizer], is
    a dependency of the program and not under its sources; the
    specification (4.1) has it "tokenize on word/punctuation boundaries".
    The package does so by splitting the text on one capturing group whose
    alternatives are, in this order: a run of word characters (the letters
    A-Z and a-z, U+00C0..U+00FF, the hyphen), a run of number characters
    (digits, dot, underscore), any single character but a line terminator
    (the dot), and a few punctuation marks that the dot has already taken.
    It keeps what the group captures and discards the pieces that are the
    empty string or a single space.  Every position matches except at a
    line terminator, so the result is the sequence of the maximal runs of
    word characters, of number characters and of line terminators, and
    every other character on its own.  Hyphenated words stay whole. *)

Module Natural.

Inductive CharKind := KWord | KNumber | KLine | KOther.

Definition charKind (c : ascii) : CharKind :=
  if Js.in_range 97 122 c || Js.in_range 65 90 c || Js.in_range 192 255 c
     || (Js.code c =? 45)%N
  then KWord
  else if Js.in_range 48 57 c || (Js.code c =? 46)%N || (Js.code c =? 95)%N
  then KNumber
  else if (Js.code c =? 10)%N || (Js.code c =? 13)%N
  then KLine
  else KOther.

(** Two adjacent characters belong to the same piece. *)
Definition same_run (c c' : ascii) : bool :=
  match charKind c, charKind c' with
  | KWord, KWord | KNumber, KNumber | KLine, KLine => true
  | _, _ => false
  end.

(** Put character [c] in front of the pieces [ts] of the rest [r] of the
    text: it extends the first piece when it continues the same run. *)
Definition glue (c : ascii) (r : string) (ts : list string) : list string :=
  match r, ts with
  | String c' _, t :: ts' =>
      if same_run c c' then String c t :: ts'
      else String c EmptyString :: ts
  | _, _ => String c EmptyString :: ts
  end.

(** The non-empty pieces of [s.split(pattern)], in order. *)
Fixpoint pieces (s : string) : list string :=
  match s with
  | EmptyString => []
  | String c r => glue c r (pieces r)
  end.

(** [tokenizer.tokenize(s)]: [_.without(s.split(pattern), '', ' ')]. *)
Definition tokenize (s : string) : list string :=
  filter (fun t => negb (t =? " ")) (pieces s).

End Natural.

(* ================================================================== *)
(** ** model.js                                                        *)
(* ================================================================== *)

Module Model.

Definition stopwords : list string :=
  ["the";"a";"an";"and";"or";"but";"to";"of";"in";"on";"for";"with";"by";
   "at";"is";"are";"be";"this";"that";"it";"as";"from";"into";"via";"over";
   "under";"we";"i";"you"].

Definition stopwords_has (t : string) : bool :=
  existsb (String.eqb t) stopwords.

(** [/[a-z0-9#]+/.test(t)] *)
Definition alnum_hash (c : ascii) : bool :=
  Js.in_range 97 122 c || Js.in_range 48 57 c || (Js.code c =? 35)%N.

Fixpoint test_alnum_hash (t : string) : bool :=
  match t with
  | EmptyString => false
  | String c r => alnum_hash c || test_alnum_hash r
  end.

Definition clean (text : string) : string :=
  let lower := Js.toLowerCase text in
  let tokens :=
    filter (fun t => negb (stopwords_has t))
      (filter test_alnum_hash (Natural.tokenize lower)) in
  Js.join " " tokens.

(** *** Complexity score *)

Definition fib : list Z := [1; 2; 3; 5; 8; 13]%Z.

Record ComplexityKeywords := {
  tiny : list string;
  small : list string;
  medium : list string;
  large : list string
}.

Definition complexityKeywords : ComplexityKeywords := {|
  tiny := ["typo";"copy";"text";"docs";"readme";"color";"padding";"icon"];
  small := ["validation";"minor";"ui";"tooltip";"css";"logging";"small";
            "refactor"];
  medium := ["api";"schema";"cache";"queue";"oauth";"retry";"pagination";
             "migration";"feature"];
  large := ["payment";"encryption";"security";"outage";"deadlock";
            "data loss";"race condition";"recovery";"multi-tenant";
            "compliance"]
|}.

(** [list.forEach(k => { if (t.includes(k)) score += w; })] *)
Definition addIf (t : string) (list : list string) (w : Q) (score : Q) : Q :=
  fold_left (fun score k => if Js.includes k t then score + w else score)
            list score.

(** [Math.min(1, len / 120)] with [len = Math.max(1, t.split(' ').length)] *)
Definition lengthScore (t : string) : Q :=
  let len := Nat.max 1 (List.length (Js.split " " t)) in
  Js.Math_min 1 (inject_Z (Z.of_nat len) / 120).

Definition scoreComplexity (text : string) : Q :=
  let t := clean text in
  let score := lengthScore t in
  let score := addIf t (tiny complexityKeywords) (-0.2) score in
  let score := addIf t (small complexityKeywords) 0.05 score in
  let score := addIf t (medium complexityKeywords) 0.15 score in
  let score := addIf t (large complexityKeywords) 0.35 score in
  Js.Math_max 0 (Js.Math_min 1.5 score).

(** *** Story points *)

Definition thresholds : list Q := [0.15; 0.3; 0.5; 0.8; 1.1; 1.5].

(** The loop of [toFib] from index [i], with [n] iterations left. *)
Fixpoint toFib_loop (score : Q) (i n : nat) : Z :=
  match n with
  | O => 13
  | S n' =>
      if Qle_bool score (nth i thresholds 0) then nth i fib 0%Z
      else toFib_loop score (S i) n'
  end.

Definition toFib (score : Q) : Z :=
  toFib_loop score 0 (List.length thresholds).

(** *** Hour estimate *)

Definition base : list (Z * Q) :=
  [(1%Z, 4%Q); (2%Z, 6%Q); (3%Z, 8%Q); (5%Z, 16%Q); (8%Z, 32%Q);
   (13%Z, 56%Q)].

Fixpoint lookup (points : Z) (table : list (Z * Q)) : option Q :=
  match table with
  | [] => None
  | (k, v) :: rest => if (k =? points)%Z then Some v else lookup points rest
  end.

Definition uncertaintyWords : list string :=
  ["spike";"investigate";"unknown";"legacy";"undocumented"].
Definition simplicityWords : list string :=
  ["well-defined";"simple";"trivial";"straightforward"].
Definition coordinationWords : list string :=
  ["cross-team";"multiple services";"coordination";"dependency"].

Definition estimateHoursFn (points : Z) (text : string) : Z :=
  let hours := match lookup points base with Some h => h | None => 8 end in
  let t := clean text in
  let hours := if Js.test_any uncertaintyWords t then hours * 1.3 else hours in
  let hours := if Js.test_any simplicityWords t then hours * 0.8 else hours in
  let hours := if Js.test_any coordinationWords t then hours * 1.25 else hours in
  Js.Math_round hours.

(** *** Rationale *)

Definition cue (alternatives : list string) (name : string) (raw : string)
  : list string :=
  if Js.test_any alternatives raw then [name] else [].

Definition buildRationale (priority : string) (sp hours : Z) (raw : string)
  : string :=
  let cues :=
   (cue ["outage";"down";"unreachable"] "service outage" raw ++
    cue ["security";"breach";"encryption"] "security risk" raw ++
    cue ["payment";"checkout"] "revenue impact" raw ++
    cue ["typo";"copy";"color";"css"] "cosmetic" raw ++
    cue ["migration";"schema";"api";"integration"] "system integration" raw
   )%list in
  let joined := Js.join ", " cues in
  "Priority " ++ priority ++ " based on cues: " ++
  (if joined =? "" then "general classification" else joined) ++
  ". Story Points ~" ++ Js.show_int sp ++ ", Est ~" ++ Js.show_int hours ++ "h.".

(** *** The classifier

    [natural.BayesClassifier] is a dependency too; the program only calls
    [getClassifications], which yields the labels with their scores, best
    first, or throws.  The scores are probabilities: non-negative numbers. *)

Record Classification := { label : string; value : Q }.

Record Classifier := {
  (** [None]: the call throws. *)
  getClassifications : string -> option (list Classification)
}.

Record ModelT := { classifier : Classifier }.

(** *** Prediction *)

Record PredictionResult := {
  priority : string;
  storyPoints : Z;
  estimateHours : Z;
  confidence : Q;
  rationale : string
}.

(** The calls that [predictRecord] makes to its two engines. *)
Inductive Call :=
| CallClassifier (content : string)
| CallScoreComplexity (text : string).

Definition Traced (A : Type) : Type := list Call * A.
Definition ret {A} (a : A) : Traced A := ([], a).
Definition bind {A B} (m : Traced A) (k : A -> Traced B) : Traced B :=
  let (log1, a) := m in let (log2, b) := k a in ((log1 ++ log2)%list, b).
Definition call {A} (c : Call) (a : A) : Traced A := ([c], a).

Notation "x <- m ;; k" := (bind m (fun x => k))
  (at level 61, m at next level, right associativity).

Definition defaultResult : PredictionResult := {|
  priority := "Low";
  storyPoints := 1;
  estimateHours := 4;
  confidence := 0.4;
  rationale := "No text provided. Falling back to conservative defaults."
|}.

Definition emergencyWords : list string :=
  ["sev1";"p0";"outage";"down";"cannot login";"payment failed";"data loss";
   "security";"breach"].

(** The [try] block: priority and confidence from the classifier's
    ranking, or the defaults [Medium] and [0.6]. *)
Definition classify (ranking : option (list Classification)) : string * Q :=
  match ranking with
  | Some (c0 :: rest) =>
      let top := value c0 in
      let second :=
        match rest with
        | c1 :: _ => if Qeq_bool (value c1) 0 then 1 # 1000000000 else value c1
        | [] => 1 # 1000000000
        end in
      (label c0, Js.Math_max 0.5 (Js.Math_min 0.99 (top / (top + second))))
  | _ => ("Medium", 0.6)
  end.

Definition predictRecord_traced (model : ModelT) (text : string)
  : Traced PredictionResult :=
  let content := clean text in
  if content =? "" then ret defaultResult
  else
    ranking <- call (CallClassifier content)
                    (getClassifications (classifier model) content) ;;
    let (priority0, confidence0) := classify ranking in
    let raw := Js.toLowerCase text in
    let (priority1, confidence1) :=
      if Js.test_any emergencyWords raw
      then ("Critical", Js.Math_max confidence0 0.85)
      else (priority0, confidence0) in
    cScore <- call (CallScoreComplexity text) (scoreComplexity text) ;;
    let storyPoints := toFib cScore in
    let estimateHours := estimateHoursFn storyPoints text in
    let rationale := buildRationale priority1 storyPoints estimateHours raw in
    ret {| priority := priority1;
           storyPoints := storyPoints;
           estimateHours := estimateHours;
           confidence := Js.toFixed2 confidence1;
           rationale := rationale |}.

Definition predictRecord (model : ModelT) (text : string) : PredictionResult :=
  snd (predictRecord_traced model text).

(** *** Rows of the data set, explanation and summary *)

Record DataRow := {
  Row : nat;
  Summary : string;
  Description : string;
  Priority : string;
  StoryPoints : Z;
  EstimateHours : Z;
  Confidence : Q;
  Rationale : string
}.

(** How JavaScript prints a number ([showNumber], in a template literal;
    [toFixed]) is left open: the program does not decide it. *)
Section Rendering.
Variable showNumber : Q -> string.

Definition explainPrediction (row : DataRow) : string :=
  "Row " ++ Js.show_int (Z.of_nat (Row row)) ++ ": Priority " ++
  Priority row ++ " (confidence " ++ showNumber (Confidence row) ++ "). " ++
  Rationale row.
End Rendering.

(** [acc[k] = (acc[k] || 0) + 1] on an object whose keys keep the order in
    which they were first set. *)
Fixpoint bump (k : string) (acc : list (string * nat)) : list (string * nat) :=
  match acc with
  | [] => [(k, 1%nat)]
  | (k', n) :: rest =>
      if k =? k' then (k', S n) :: rest else (k', n) :: bump k rest
  end.

Definition avg (arr : list Q) : Q :=
  fold_left Qplus arr 0 / inject_Z (Z.of_nat (Nat.max 1 (List.length arr))).

Record DatasetSummary := {
  priorityCounts : list (string * nat);
  avgStoryPoints : Q;
  avgHours : Q
}.

Definition summarizeDataset (data : list DataRow) : DatasetSummary := {|
  priorityCounts := fold_left (fun acc r => bump (Priority r) acc) data [];
  avgStoryPoints := avg (map (fun r => inject_Z (StoryPoints r)) data);
  avgHours := avg (map (fun r => inject_Z (EstimateHours r)) data)
|}.

End Model.

(* ================================================================== *)
(** ** server.js                                                       *)
(* ================================================================== *)

Module Server.
Import Model.

(** *** [/api/predict]: one row of the upload *)

Record TextRecord := { summary : string; description : string }.

Definition rowText (rec : TextRecord) : string :=
  Js.trim (summary rec ++ Js.nl ++ description rec).

Definition predictRow (model : ModelT) (idx : nat) (rec : TextRecord)
  : Traced DataRow :=
  let text := rowText rec in
  let (log, result) := predictRecord_traced model text in
  (log,
   {| Row := idx + 1;
      Summary := summary rec;
      Description := description rec;
      Priority := priority result;
      StoryPoints := storyPoints result;
      EstimateHours := estimateHours result;
      Confidence := confidence result;
      Rationale := rationale result |}).

(** *** [/api/chat] *)

Inductive Response :=
| BadRequest (error : string)     (* status 400 *)
| Reply (reply : string).         (* status 200 *)

(** The digits of [\d+] at the head of [s]. *)
Fixpoint takeDigits (s : string) : string :=
  match s with
  | String c r => if Js.is_digit c then String c (takeDigits r) else EmptyString
  | EmptyString => EmptyString
  end.

Definition digitsAt (s : string) : option string :=
  match takeDigits s with
  | EmptyString => None
  | d => Some d
  end.

Definition orElse {A} (a b : option A) : option A :=
  match a with Some _ => a | None => b end.

(** What may follow [why]: white space, then one of the three nouns or
    none, then white space or none, then the digits, which are the
    result. *)
Definition whyTail (s : string) : option string :=
  match s with
  | String c _ =>
      if Js.is_space c then
        let r := Js.trimStart s in
        let noun (w : string) :=
          if Js.startsWith w r
          then digitsAt (Js.trimStart (Js.drop (String.length w) r))
          else None in
        orElse (noun "row")
          (orElse (noun "record") (orElse (noun "id") (digitsAt r)))
      else None
  | EmptyString => None
  end.

(** [msg.match(/why\s+(?:row|record|id)?\s*(\d+)/)]: the group of the
    leftmost match. *)
Fixpoint whyMatch (msg : string) : option string :=
  let here :=
    if Js.startsWith "why" msg then whyTail (Js.drop 3 msg) else None in
  match here with
  | Some d => Some d
  | None =>
      match msg with
      | String _ r => whyMatch r
      | EmptyString => None
      end
  end.

(** [parseInt(digits, 10)] on a string of digits. *)
Definition parseInt (digits : string) : Z :=
  fold_left (fun acc c => (10 * acc + (Z.of_N (Js.code c) - 48))%Z)
            (list_ascii_of_string digits) 0%Z.

Definition priorityRank (p : string) : Z :=
  if p =? "Critical" then 4
  else if p =? "High" then 3
  else if p =? "Medium" then 2
  else if p =? "Low" then 1
  else 0.

(** The comparator of the sort: ranks first, confidences on a tie. *)
Definition compareRisk (a b : DataRow) : Q :=
  let d := (priorityRank (Priority b) - priorityRank (Priority a))%Z in
  if (d =? 0)%Z then Confidence b - Confidence a else inject_Z d.

(** [Array.prototype.sort] is stable: an element goes in front of the
    first one that it precedes strictly. *)
Fixpoint insertBy (cmp : DataRow -> DataRow -> Q) (x : DataRow)
  (l : list DataRow) : list DataRow :=
  match l with
  | [] => [x]
  | y :: r =>
      if Qle_bool 0 (cmp x y) then y :: insertBy cmp x r else x :: y :: r
  end.

Definition sortBy (cmp : DataRow -> DataRow -> Q) (l : list DataRow)
  : list DataRow :=
  fold_left (fun sorted x => insertBy cmp x sorted) l [].

Definition noDatasetReply : string :=
  "No dataset loaded yet. Please upload a CSV first. The CSV must have Summary and/or Description columns.".

Definition fallbackReply : string :=
  "I can help with distribution, averages, and explaining rows. Try: " ++
  Js.dquote ++ "Why 1" ++ Js.dquote ++ " or " ++
  Js.dquote ++ "Priority distribution" ++ Js.dquote ++ ".".

(** The bullet U+2022 and the arrow U+2192 of the replies lie outside
    Latin-1; they stand here as their UTF-8 bytes. *)
Definition bullet : string :=
  String (ascii_of_nat 226) (String (ascii_of_nat 128)
    (String (ascii_of_nat 162) EmptyString)).
Definition arrow : string :=
  String (ascii_of_nat 226) (String (ascii_of_nat 134)
    (String (ascii_of_nat 146) EmptyString)).

Definition helpReply : string :=
  "You can ask: " ++ Js.nl ++
  bullet ++ " " ++ Js.dquote ++ "Why 5" ++ Js.dquote ++
    " to explain predictions for row 5" ++ Js.nl ++
  bullet ++ " " ++ Js.dquote ++ "Priority distribution" ++ Js.dquote ++
    " to see counts" ++ Js.nl ++
  bullet ++ " " ++ Js.dquote ++ "Average" ++ Js.dquote ++
    " for averages" ++ Js.nl ++
  bullet ++ " " ++ Js.dquote ++ "Top risky" ++ Js.dquote ++
    " to see highest priority rows".

Definition distributionWords : list string :=
  ["distribution";"count";"how many";"breakdown";"summary of priority"].
Definition helpWords : list string :=
  ["help";"what can you do";"commands";"options"].
Definition riskyWords : list string :=
  ["top risky";"highest priority";"critical"].
Definition averageWords : list string := ["average";"avg"].

Section Chat.
Variable showNumber : Q -> string.
Variable toFixed : Q -> nat -> string.

(** The "Why X" block: [Some] when it answers, [None] when control goes
    on to the next block. *)
Definition explainRow (lastDataset : list DataRow) (msg : string)
  : option Response :=
  match whyMatch msg with
  | Some digits =>
      let idx := (parseInt digits - 1)%Z in
      if ((0 <=? idx) && (idx <? Z.of_nat (List.length lastDataset)))%Z
      then match nth_error lastDataset (Z.to_nat idx) with
           | Some row => Some (Reply (explainPrediction showNumber row))
           | None => None
           end
      else None
  | None => None
  end.

Definition distributionReply (lastDataset : list DataRow) : string :=
  let s := summarizeDataset lastDataset in
  Js.join Js.nl
    [ "Priority counts " ++ arrow ++ " " ++
        Js.join ", "
          (map (fun kv => fst kv ++ ": " ++ Js.show_int (Z.of_nat (snd kv)))
               (priorityCounts s));
      "Average story points: " ++ toFixed (avgStoryPoints s) 2;
      "Average hours: " ++ toFixed (avgHours s) 1 ].

Definition topRiskyReply (lastDataset : list DataRow) : string :=
  let sorted := sortBy compareRisk lastDataset in
  let top := firstn (Nat.min 5 (List.length sorted)) sorted in
  Js.join Js.nl
    (map (fun r =>
            "Row " ++ Js.show_int (Z.of_nat (Row r)) ++ ": " ++ Priority r ++
            " (SP " ++ Js.show_int (StoryPoints r) ++ ", ~" ++
            Js.show_int (EstimateHours r) ++ "h)")
         top).

Definition averagesReply (lastDataset : list DataRow) : string :=
  let s := summarizeDataset lastDataset in
  "Average story points: " ++ toFixed (avgStoryPoints s) 2 ++
  " | Average hours: " ++ toFixed (avgHours s) 1.

(** The blocks after "Why X", in the order of the source. *)
Definition laterIntents (lastDataset : list DataRow) (msg : string)
  : Response :=
  if Js.test_any distributionWords msg
  then Reply (distributionReply lastDataset)
  else if Js.test_any helpWords msg then Reply helpReply
  else if Js.test_any riskyWords msg then Reply (topRiskyReply lastDataset)
  else if Js.test_any averageWords msg then Reply (averagesReply lastDataset)
  else Reply fallbackReply.

(** The handler; [message] is [None] when the body has no string under
    that name. *)
Definition chat (lastDataset : list DataRow) (message : option string)
  : Response :=
  match message with
  | None => BadRequest "Message is required."
  | Some message =>
      if (message =? "") || (String.length (Js.trim message) <? 2)%nat
      then BadRequest "Message is required."
      else
        let msg := Js.toLowerCase message in
        match lastDataset with
        | [] => Reply noDatasetReply
        | _ :: _ =>
            match explainRow lastDataset msg with
            | Some response => response
            | None => laterIntents lastDataset msg
            end
        end
  end.
End Chat.

End Server.

(* ================================================================== *)
(** ** Statements of the specification, as definitions                 *)
(* ================================================================== *)

Module Spec.
Import Model.

(** [w] occurs in [s] as a run of consecutive characters. *)
Definition occurs (w s : string) : Prop :=
  exists pre post, s = pre ++ w ++ post.

(** The complexity score as the specification words it: a keyword set
    adds its weight once when any of its keywords occurs. *)
Definition setWeight (t : string) (list : list string) (w : Q) : Q :=
  if Js.test_any list t then w else 0.

Definition scoreOncePerSet (text : string) : Q :=
  let t := clean text in
  Js.Math_max 0 (Js.Math_min 1.5
    (lengthScore t
     + setWeight t (tiny complexityKeywords) (-0.2)
     + setWeight t (small complexityKeywords) 0.05
     + setWeight t (medium complexityKeywords) 0.15
     + setWeight t (large complexityKeywords) 0.35)).

(** The number of keywords of a list that occur in [t]. *)
Definition hits (t : string) (list : list string) : nat :=
  List.length (filter (fun k => Js.includes k t) list).

Definition weight (n : nat) (w : Q) : Q := inject_Z (Z.of_nat n) * w.

(** The hour estimate as the specification words it: the base value times
    the multipliers that apply, rounded. *)
Definition multiplier (applies : bool) (m : Q) : Q := if applies then m else 1.

Definition hoursSpec (baseHours : Q) (t : string) : Z :=
  Js.Math_round
    (baseHours
     * multiplier (Js.test_any uncertaintyWords t) 1.3
     * multiplier (Js.test_any simplicityWords t) 0.8
     * multiplier (Js.test_any coordinationWords t) 1.25).


(** A word that normalisation keeps wherever it occurs: it is made of
    word characters only, one of them a letter a-z, and no stop word
    contains it. *)
Fixpoint allWord (w : string) : bool :=
  match w with
  | EmptyString => true
  | String c r =>
      match Natural.charKind c with
      | Natural.KWord => allWord r
      | _ => false
      end
  end.

Definition kept (w : string) : bool :=
  allWord w && test_alnum_hash w &&
  forallb (fun sw => negb (Js.includes w sw)) stopwords.

(** Every alternative of the emergency pattern contains a kept word. *)
Definition emergencyCore (k : string) : string :=
  if k =? "sev1" then "sev"
  else if k =? "p0" then "p"
  else if k =? "cannot login" then "cannot"
  else if k =? "payment failed" then "payment"
  else if k =? "data loss" then "data"
  else k.

(** Priority and confidence before rounding: the classifier's answer,
    then the emergency override on the raw lowercased text. *)
Definition ranked (model : ModelT) (text : string) : string * Q :=
  classify (getClassifications (classifier model) (clean text)).

Definition overridden (raw : string) (pc : string * Q) : string * Q :=
  if Js.test_any emergencyWords raw
  then ("Critical", Js.Math_max (snd pc) 0.85)
  else pc.

(** The scenario text of the specification. *)
Definition gatewayText : string :=
  "Payment gateway failing checkout blocked for all customers".


(** A classifier that answers every text with the same ranking. *)
Definition constantModel (ranking : list (string * Q)) : ModelT :=
  {| classifier :=
       {| getClassifications := fun _ =>
            Some (map (fun p => {| label := fst p; value := snd p |})
                      ranking) |} |}.

(** A classifier that always throws. *)
Definition failingModel : ModelT :=
  {| classifier := {| getClassifications := fun _ => None |} |}.

End Spec.

(* ================================================================== *)
(** ** server.js: the upload handler and the state of the server       *)
(* ================================================================== *)

Module App.
Import Model Server.

(** A record of the parsed CSV: an object from column names to cells. *)
Definition CsvRecord : Type := list (string * string).

(** [row[key]]: [None] stands for [undefined]. *)
Fixpoint get (key : string) (row : CsvRecord) : option string :=
  match row with
  | [] => None
  | (k, v) :: rest => if k =? key then Some v else get key rest
  end.

(** [row[k1] ?? row[k2] ?? ''] *)
Definition cell (k1 k2 : string) (row : CsvRecord) : string :=
  match get k1 row with
  | Some v => v
  | None => match get k2 row with Some v => v | None => EmptyString end
  end.

Definition textRecordOf (row : CsvRecord) : TextRecord :=
  {| summary := cell "Summary" "summary" row;
     description := cell "Description" "description" row |}.

(** [headers.some(h => h.toLowerCase() === name)] *)
Definition hasColumn (name : string) (headers : list string) : bool :=
  existsb (fun h => Js.toLowerCase h =? name) headers.

(** [s.endsWith(suffix)] *)
Fixpoint endsWith (suffix s : string) : bool :=
  (s =? suffix) ||
  match s with
  | EmptyString => false
  | String _ r => endsWith suffix r
  end.

(** [records.map((row, idx) => ...)] from index [idx] on. *)
Fixpoint augmentFrom (model : ModelT) (idx : nat) (records : list CsvRecord)
  : list DataRow :=
  match records with
  | [] => []
  | row :: rest =>
      snd (predictRow model idx (textRecordOf row))
      :: augmentFrom model (S idx) rest
  end.

Definition augment (model : ModelT) (records : list CsvRecord) : list DataRow :=
  augmentFrom model 0 records.

Record File := { originalname : string; buffer : string }.

Inductive PredictResponse :=
| Rejected (error : string)                                  (* status 400 *)
| Failed (error : string)                                    (* status 500 *)
| Predicted (count : nat) (data : list DataRow) (csv : string).

Definition csvFields : list string :=
  ["Row";"Summary";"Description";"Priority";"StoryPoints";"EstimateHours";
   "Confidence";"Rationale"].

Definition noColumnError : string :=
  "CSV must include at least one column: " ++ Js.dquote ++ "Summary" ++
  Js.dquote ++ " or " ++ Js.dquote ++ "Description" ++ Js.dquote ++ ".".

Definition processError : string :=
  "Failed to process CSV. Ensure it is valid and try again.".

Inductive Request :=
| Ping
| Predict (file : option File)
| Chat (message : option string)
| Clear.

Inductive AppResponse :=
| Pong
| PredictDone (response : PredictResponse)
| ChatDone (response : Response)
| Cleared.

(** The CSV reader ([csv-parse]) and writer ([json2csv]) are dependencies;
    either may throw, which [None] stands for. *)
Section Handlers.
Variable model : ModelT.
Variable parse : string -> option (list CsvRecord).
Variable toCsv : list string -> list DataRow -> option string.
Variable showNumber : Q -> string.
Variable toFixed : Q -> nat -> string.

(** [/api/predict]: the new value of [lastDataset] and the response. *)
Definition predict (lastDataset : list DataRow) (file : option File)
  : list DataRow * PredictResponse :=
  match file with
  | None =>
      (lastDataset, Rejected "No file uploaded. Please attach a CSV file.")
  | Some f =>
      if negb (endsWith ".csv" (Js.toLowerCase (originalname f)))
      then (lastDataset,
            Rejected "Invalid file type. Only .csv files are accepted.")
      else
        match parse (buffer f) with
        | None => (lastDataset, Failed processError)
        | Some [] =>
            (lastDataset, Rejected "CSV appears empty or has no data rows.")
        | Some (first :: rest) =>
            let headers := map fst first in
            if negb (hasColumn "summary" headers)
               && negb (hasColumn "description" headers)
            then (lastDataset, Rejected noColumnError)
            else
              let augmented := augment model (first :: rest) in
              match toCsv csvFields augmented with
              | Some csv =>
                  (augmented,
                   Predicted (List.length augmented) augmented csv)
              | None => (augmented, Failed processError)
              end
        end
  end.

(** One request against the server: the next [lastDataset] and the
    response. *)
Definition handle (lastDataset : list DataRow) (request : Request)
  : list DataRow * AppResponse :=
  match request with
  | Ping => (lastDataset, Pong)
  | Predict file =>
      let (next, response) := predict lastDataset file in
      (next, PredictDone response)
  | Chat message =>
      (lastDataset, ChatDone (chat showNumber toFixed lastDataset message))
  | Clear => ([], Cleared)
  end.

(** The data set after a sequence of requests. *)
Definition serve (lastDataset : list DataRow) (requests : list Request)
  : list DataRow :=
  fold_left (fun state request => fst (handle state request))
            requests lastDataset.
End Handlers.

End App.

(* ================================================================== *)
(** ** Notions used by the further properties                          *)
(* ================================================================== *)

Module Notions.
Import Model Server.

(** The tokens that [clean] joins. *)
Definition cleanTokens (text : string) : list string :=
  filter (fun t => negb (stopwords_has t))
    (filter test_alnum_hash (Natural.tokenize (Js.toLowerCase text))).

(** A non-empty string that the tokenizer leaves in one piece. *)
Fixpoint oneRun (t : string) : bool :=
  match t with
  | EmptyString => false
  | String c r =>
      match r with
      | EmptyString => true
      | String c' _ => Natural.same_run c c' && oneRun r
      end
  end.

(** Every character of [t] passes the test [p]. *)
Fixpoint allChars (p : ascii -> bool) (t : string) : bool :=
  match t with
  | EmptyString => true
  | String c r => p c && allChars p r
  end.

Fixpoint noSpace (t : string) : bool :=
  match t with
  | EmptyString => true
  | String c r => negb (Ascii.eqb c " ") && noSpace r
  end.

(** What every token of [clean] satisfies: it is one run without a space,
    in lower case, with a letter a-z, a digit or a hash, and no stop
    word. *)
Definition goodToken (t : string) : Prop :=
  oneRun t = true /\ noSpace t = true /\ Js.toLowerCase t = t /\
  test_alnum_hash t = true /\ stopwords_has t = false.

Fixpoint allDigits (t : string) : bool :=
  match t with
  | EmptyString => true
  | String c r => Js.is_digit c && allDigits r
  end.

Fixpoint allSpaces (t : string) : bool :=
  match t with
  | EmptyString => true
  | String c r => Js.is_space c && allSpaces r
  end.


(** One line of the "top risky" reply. *)
Definition riskLine (r : DataRow) : string :=
  "Row " ++ Js.show_int (Z.of_nat (Row r)) ++ ": " ++ Priority r ++
  " (SP " ++ Js.show_int (StoryPoints r) ++ ", ~" ++
  Js.show_int (EstimateHours r) ++ "h)".

(** The number of rows with priority [k]. *)
Definition rowsWith (k : string) (data : list DataRow) : nat :=
  List.length (filter (fun r => Priority r =? k) data).

Definition total (counts : list (string * nat)) : nat :=
  fold_right (fun kv acc => (snd kv + acc)%nat) 0%nat counts.

Definition sumQ (l : list Q) : Q := fold_right Qplus 0 l.

(** The count that [priorityCounts] holds for a label; 0 when absent. *)
Fixpoint countOf (k : string) (counts : list (string * nat)) : nat :=
  match counts with
  | [] => 0
  | (k', n) :: rest => if k =? k' then n else countOf k rest
  end.

(** The rows are numbered 1, 2, ... from [start] + 1 on. *)
Fixpoint numberedFrom (start : nat) (rows : list DataRow) : Prop :=
  match rows with
  | [] => True
  | r :: rest => Row r = S start /\ numberedFrom (S start) rest
  end.

End Notions.

(* ================================================================== *)
(** ** Facts about strings                                             *)
(* ================================================================== *)

Module StringFacts.
Import Spec.

Lemma app_assoc_s (a b c : string) : (a ++ b) ++ c = a ++ (b ++ c).
Proof. induction a as [|x a IH]; simpl; [reflexivity | now rewrite IH]. Qed.

Lemma app_nil_r_s (a : string) : a ++ "" = a.
Proof. induction a as [|x a IH]; simpl; [reflexivity | now rewrite IH]. Qed.

Lemma length_app_s (a b : string) :
  String.length (a ++ b) = (String.length a + String.length b)%nat.
Proof. induction a as [|x a IH]; simpl; [reflexivity | now rewrite IH]. Qed.

Lemma startsWith_occurs (k s : string) :
  Js.startsWith k s = true <-> exists post, s = k ++ post.
Proof.
  revert s; induction k as [|a k IH]; intros s; simpl.
  - split; [exists s; reflexivity | reflexivity].
  - destruct s as [|b s].
    + split; [discriminate | intros [post H]; discriminate].
    + rewrite andb_true_iff, Ascii.eqb_eq, IH. split.
      * intros [-> [post ->]]. exists post; reflexivity.
      * intros [post H]. injection H as -> ->. split; [reflexivity | now exists post].
Qed.

Lemma includes_occurs (k s : string) :
  Js.includes k s = true <-> occurs k s.
Proof.
  induction s as [|b s IH].
  - simpl. rewrite orb_false_r, startsWith_occurs. split.
    + intros [post H]. exists "", post. exact H.
    + intros [[|x pre] [post H]]; [now exists post | discriminate].
  - cbn [Js.includes]. rewrite orb_true_iff, IH, startsWith_occurs. split.
    + intros [[post H] | [pre [post H]]].
      * exists "", post. exact H.
      * exists (String b pre), post. simpl. now rewrite H.
    + intros [[|x pre] [post H]].
      * left. now exists post.
      * right. simpl in H. injection H as _ H. now exists pre, post.
Qed.

Lemma occurs_refl (s : string) : occurs s s.
Proof. exists "", "". simpl. now rewrite app_nil_r_s. Qed.

Lemma occurs_trans (a b c : string) : occurs a b -> occurs b c -> occurs a c.
Proof.
  intros [p1 [q1 ->]] [p2 [q2 ->]].
  exists (p2 ++ p1), (q1 ++ q2). now rewrite !app_assoc_s.
Qed.

Lemma occurs_cons (w : string) (c : ascii) (s : string) :
  occurs w s -> occurs w (String c s).
Proof. intros [p [q ->]]. now exists (String c p), q. Qed.

Lemma occurs_app_l (w a b : string) : occurs w a -> occurs w (a ++ b).
Proof.
  intros [p [q ->]]. exists p, (q ++ b). now rewrite !app_assoc_s.
Qed.

Lemma occurs_app_r (w a b : string) : occurs w b -> occurs w (a ++ b).
Proof.
  intros [p [q ->]]. exists (a ++ p), q. now rewrite !app_assoc_s.
Qed.

Lemma occurs_empty (w : string) : occurs w "" -> w = "".
Proof.
  intros [[|x p] [q H]]; [|discriminate].
  destruct w; [reflexivity | discriminate].
Qed.

Lemma toLowerCase_app (a b : string) :
  Js.toLowerCase (a ++ b) = Js.toLowerCase a ++ Js.toLowerCase b.
Proof. induction a as [|x a IH]; simpl; [reflexivity | now rewrite IH]. Qed.

Lemma toLowerCase_occurs (w s : string) :
  occurs w s -> occurs (Js.toLowerCase w) (Js.toLowerCase s).
Proof.
  intros [p [q ->]]. exists (Js.toLowerCase p), (Js.toLowerCase q).
  now rewrite !toLowerCase_app.
Qed.

Lemma toLowerCase_app_inv (s a b : string) :
  Js.toLowerCase s = a ++ b ->
  exists a' b', s = a' ++ b' /\ Js.toLowerCase a' = a /\ Js.toLowerCase b' = b.
Proof.
  revert s; induction a as [|x a IH]; intros s H.
  - exists "", s. auto.
  - destruct s as [|c s]; [discriminate|].
    simpl in H. injection H as Hc H.
    destruct (IH _ H) as [a' [b' [-> [Ha Hb]]]].
    exists (String c a'), b'. simpl. now rewrite Hc, Ha, Hb.
Qed.

Lemma join_occurs (sep t : string) (l : list string) :
  In t l -> occurs t (Js.join sep l).
Proof.
  induction l as [|x l IH]; [intros []|].
  intros [-> | Hin].
  - destruct l; [apply occurs_refl | apply occurs_app_l, occurs_refl].
  - destruct l as [|y l]; [destruct Hin|].
    change (Js.join sep (x :: y :: l)) with (x ++ sep ++ Js.join sep (y :: l)).
    apply occurs_app_r, occurs_app_r, IH, Hin.
Qed.

Lemma test_alnum_hash_app (a b : string) :
  Model.test_alnum_hash (a ++ b)
  = Model.test_alnum_hash a || Model.test_alnum_hash b.
Proof.
  induction a as [|x a IH]; simpl; [reflexivity|].
  now rewrite IH, orb_assoc.
Qed.

Lemma test_alnum_hash_occurs (w t : string) :
  occurs w t -> Model.test_alnum_hash w = true ->
  Model.test_alnum_hash t = true.
Proof.
  intros [p [q ->]] H.
  rewrite !test_alnum_hash_app, H. now rewrite orb_true_r.
Qed.

End StringFacts.

(* ================================================================== *)
(** ** Facts about normalisation                                       *)
(* ================================================================== *)

Module CleanFacts.
Import Spec StringFacts.

(** Every piece of the rest survives in front of it, possibly one
    character longer. *)
Lemma glue_keeps (c : ascii) (r t : string) (ts : list string) :
  In t ts ->
  In t (Natural.glue c r ts) \/ In (String c t) (Natural.glue c r ts).
Proof.
  intros Hin. unfold Natural.glue.
  destruct r as [|c' r']; [left; now right|].
  destruct ts as [|t0 ts']; [destruct Hin|].
  destruct (Natural.same_run c c').
  - destruct Hin as [-> | Hin]; [right; now left | left; now right].
  - left. now right.
Qed.

Lemma pieces_prefix (w pre s : string) :
  (exists t, In t (Natural.pieces s) /\ occurs w t) ->
  exists t, In t (Natural.pieces (pre ++ s)) /\ occurs w t.
Proof.
  induction pre as [|c pre IH]; intros H; [exact H|].
  destruct (IH H) as [t [Hin Hocc]].
  simpl. destruct (glue_keeps c (pre ++ s) t _ Hin) as [Hk | Hk].
  - now exists t.
  - exists (String c t). split; [exact Hk | now apply occurs_cons].
Qed.

Lemma same_run_word (c c' : ascii) :
  Natural.charKind c = Natural.KWord ->
  Natural.charKind c' = Natural.KWord ->
  Natural.same_run c c' = true.
Proof. intros H H'. unfold Natural.same_run. now rewrite H, H'. Qed.

(** A run of word characters at the head of the text is the head of the
    first piece. *)
Lemma pieces_word_head (w : string) :
  w <> "" -> allWord w = true ->
  forall post, exists t ts, Natural.pieces (w ++ post) = (w ++ t) :: ts.
Proof.
  induction w as [|c w IH]; [congruence|].
  intros _ Hall post. simpl in Hall.
  destruct (Natural.charKind c) eqn:Hc; try discriminate.
  destruct w as [|c' w'].
  - cbn [append Natural.pieces]. unfold Natural.glue.
    destruct post as [|p post']; [now exists "", []|].
    destruct (Natural.pieces (String p post')) as [|t0 ts0];
      [now exists "", []|].
    destruct (Natural.same_run c p); [now exists t0, ts0 |].
    now exists "", (t0 :: ts0).
  - destruct (IH ltac:(discriminate) Hall post) as [t [ts Ht]].
    exists t, ts.
    change ((String c (String c' w')) ++ post)
      with (String c (String c' w' ++ post)).
    cbn [Natural.pieces]. rewrite Ht.
    cbn [append Natural.glue].
    simpl in Hall. destruct (Natural.charKind c') eqn:Hc'; try discriminate.
    now rewrite (same_run_word _ _ Hc Hc').
Qed.

Lemma pieces_occurs (w s : string) :
  w <> "" -> allWord w = true -> occurs w s ->
  exists t, In t (Natural.pieces s) /\ occurs w t.
Proof.
  intros Hne Hall [pre [post ->]].
  apply pieces_prefix.
  destruct (pieces_word_head w Hne Hall post) as [t [ts ->]].
  exists (w ++ t). split; [now left | apply occurs_app_l, occurs_refl].
Qed.

Lemma kept_nonempty (w : string) : kept w = true -> w <> "".
Proof. intros H ->. discriminate H. Qed.

Lemma stopword_contains (w t : string) :
  forallb (fun sw => negb (Js.includes w sw)) Model.stopwords = true ->
  occurs w t -> Model.stopwords_has t = false.
Proof.
  intros Hall Hocc.
  destruct (Model.stopwords_has t) eqn:Hs; [|reflexivity].
  unfold Model.stopwords_has in Hs.
  apply existsb_exists in Hs. destruct Hs as [sw [Hin Heq]].
  apply String.eqb_eq in Heq. subst sw.
  rewrite forallb_forall in Hall. specialize (Hall t Hin).
  apply includes_occurs in Hocc. now rewrite Hocc in Hall.
Qed.

(** The normalised text keeps every kept word of the lowercased text. *)
Lemma clean_keeps (w text : string) :
  kept w = true ->
  occurs w (Js.toLowerCase text) ->
  occurs w (Model.clean text).
Proof.
  intros Hk Hocc.
  pose proof (kept_nonempty w Hk) as Hne.
  unfold kept in Hk. rewrite !andb_true_iff in Hk.
  destruct Hk as [[Hall Han] Hstop].
  destruct (pieces_occurs w _ Hne Hall Hocc) as [t [Hin Ht]].
  pose proof (test_alnum_hash_occurs w t Ht Han) as Htan.
  apply occurs_trans with t; [exact Ht|].
  unfold Model.clean. apply join_occurs.
  apply filter_In. split.
  - apply filter_In. split; [|exact Htan].
    unfold Natural.tokenize. apply filter_In. split; [exact Hin|].
    destruct (t =? " ") eqn:E; [|reflexivity].
    apply String.eqb_eq in E. subst t. discriminate Htan.
  - now rewrite (stopword_contains w t Hstop Ht).
Qed.

Lemma clean_keeps_includes (w text : string) :
  kept w = true ->
  Js.includes w (Js.toLowerCase text) = true ->
  Js.includes w (Model.clean text) = true.
Proof.
  intros Hk H. apply includes_occurs, clean_keeps; [exact Hk|].
  now apply includes_occurs.
Qed.

(** A text that contains a word containing a kept word has a non-empty
    normal form. *)
Lemma clean_nonempty (w k text : string) :
  kept w = true -> Js.includes w k = true ->
  Js.includes k (Js.toLowerCase text) = true ->
  Model.clean text <> "".
Proof.
  intros Hk Hwk Hkt Hempty.
  apply includes_occurs in Hwk, Hkt.
  pose proof (clean_keeps w text Hk (occurs_trans _ _ _ Hwk Hkt)) as H.
  rewrite Hempty in H. apply occurs_empty in H.
  now apply (kept_nonempty w Hk).
Qed.

Lemma clean_empty : Model.clean "" = "".
Proof. reflexivity. Qed.

Lemma emergency_clean_nonempty (text : string) :
  Js.test_any Model.emergencyWords (Js.toLowerCase text) = true ->
  Model.clean text <> "".
Proof.
  intros H. unfold Js.test_any in H.
  apply existsb_exists in H. destruct H as [k [Hin Hk]].
  apply (clean_nonempty (emergencyCore k) k text); [| |exact Hk];
    unfold Model.emergencyWords in Hin; simpl in Hin;
    repeat (destruct Hin as [<- | Hin]; [vm_compute; reflexivity|]);
    destruct Hin.
Qed.

End CleanFacts.

(* ================================================================== *)
(** ** Facts about the numeric primitives                              *)
(* ================================================================== *)

Module NumFacts.

Lemma Qle_bool_false (a b : Q) : Qle_bool a b = false -> b < a.
Proof.
  intros H. apply Qnot_le_lt. intros Hle.
  apply Qle_bool_iff in Hle. congruence.
Qed.

Lemma Math_max_l (a b : Q) : a <= Js.Math_max a b.
Proof.
  unfold Js.Math_max. destruct (Qle_bool a b) eqn:E.
  - now apply Qle_bool_iff.
  - apply Qle_refl.
Qed.

Lemma Math_max_r (a b : Q) : b <= Js.Math_max a b.
Proof.
  unfold Js.Math_max. destruct (Qle_bool a b) eqn:E.
  - apply Qle_refl.
  - apply Qlt_le_weak. now apply Qle_bool_false.
Qed.

Lemma Math_max_lub (a b c : Q) : a <= c -> b <= c -> Js.Math_max a b <= c.
Proof. intros Ha Hb. unfold Js.Math_max. now destruct (Qle_bool a b). Qed.

Lemma Math_min_l (a b : Q) : Js.Math_min a b <= a.
Proof.
  unfold Js.Math_min. destruct (Qle_bool a b) eqn:E.
  - apply Qle_refl.
  - apply Qlt_le_weak. now apply Qle_bool_false.
Qed.

Lemma Math_min_r (a b : Q) : Js.Math_min a b <= b.
Proof.
  unfold Js.Math_min. destruct (Qle_bool a b) eqn:E.
  - now apply Qle_bool_iff.
  - apply Qle_refl.
Qed.

Lemma Math_min_glb (a b c : Q) : c <= a -> c <= b -> c <= Js.Math_min a b.
Proof. intros Ha Hb. unfold Js.Math_min. now destruct (Qle_bool a b). Qed.

Lemma Math_min_comp (a b b' : Q) :
  b == b' -> Js.Math_min a b == Js.Math_min a b'.
Proof.
  intros H. unfold Js.Math_min. rewrite (Qleb_comp a a (Qeq_refl a) b b' H).
  destruct (Qle_bool a b'); [reflexivity | exact H].
Qed.

Lemma Math_max_comp (a b b' : Q) :
  b == b' -> Js.Math_max a b == Js.Math_max a b'.
Proof.
  intros H. unfold Js.Math_max. rewrite (Qleb_comp a a (Qeq_refl a) b b' H).
  destruct (Qle_bool a b'); [exact H | reflexivity].
Qed.

Lemma hundredths_le (n m : Z) : (n <= m)%Z -> n # 100 <= m # 100.
Proof. intros H. unfold Qle. simpl. lia. Qed.

(** Rounding to hundredths does not cross a hundredth. *)
Lemma toFixed2_lower (n : Z) (x : Q) :
  n # 100 <= x -> n # 100 <= Js.toFixed2 x.
Proof.
  intros H. unfold Js.toFixed2. apply hundredths_le.
  rewrite <- (Qfloor_Z n). apply Qfloor_resp_le.
  assert (E : inject_Z n == (n # 100) * 100).
  { unfold Qeq. simpl. lia. }
  rewrite E. lra.
Qed.

Lemma Qfloor_half (n : Z) : Qfloor (inject_Z n + (1 # 2)) = n.
Proof.
  unfold Qfloor, Qplus, inject_Z. simpl.
  replace (n * 2 + 1)%Z with (1 + n * 2)%Z by lia.
  rewrite Z.div_add by lia. reflexivity.
Qed.

Lemma toFixed2_upper (n : Z) (x : Q) :
  x <= n # 100 -> Js.toFixed2 x <= n # 100.
Proof.
  intros H. unfold Js.toFixed2. apply hundredths_le.
  rewrite <- (Qfloor_half n). apply Qfloor_resp_le.
  assert (E : inject_Z n == (n # 100) * 100).
  { unfold Qeq. simpl. lia. }
  rewrite E. lra.
Qed.

End NumFacts.

(* ================================================================== *)
(** ** The prediction                                                  *)
(* ================================================================== *)

Module PredictFacts.
Import Model Spec StringFacts CleanFacts NumFacts.

Lemma eqb_empty_false (s : string) : s <> "" -> (s =? "") = false.
Proof. intros H. now apply String.eqb_neq. Qed.

(** What [predictRecord] does on a text whose normal form is not empty. *)
Lemma predictRecord_traced_run (model : ModelT) (text : string) :
  clean text <> "" ->
  predictRecord_traced model text =
  ([CallClassifier (clean text); CallScoreComplexity text],
   let pc := overridden (Js.toLowerCase text) (ranked model text) in
   let sp := toFib (scoreComplexity text) in
   let hours := estimateHoursFn sp text in
   {| priority := fst pc;
      storyPoints := sp;
      estimateHours := hours;
      confidence := Js.toFixed2 (snd pc);
      rationale := buildRationale (fst pc) sp hours (Js.toLowerCase text) |}).
Proof.
  intros Hne. unfold predictRecord_traced, overridden, ranked.
  rewrite (eqb_empty_false _ Hne).
  unfold bind, call, ret.
  destruct (classify _) as [p0 c0].
  destruct (Js.test_any emergencyWords _); reflexivity.
Qed.

Lemma predictRecord_traced_empty (model : ModelT) (text : string) :
  clean text = "" ->
  predictRecord_traced model text = ([], defaultResult).
Proof. intros H. unfold predictRecord_traced. now rewrite H. Qed.

Lemma classify_range (ranking : option (list Classification)) :
  0.5 <= snd (classify ranking) <= 0.99.
Proof.
  unfold classify.
  destruct ranking as [[|c0 rest]|]; simpl; try (split; lra).
  split.
  - apply Math_max_l.
  - apply Math_max_lub; [lra | apply Math_min_l].
Qed.

Lemma overridden_range (raw : string) (pc : string * Q) :
  0.5 <= snd pc <= 0.99 -> 0.5 <= snd (overridden raw pc) <= 0.99.
Proof.
  intros [Hlo Hhi]. unfold overridden.
  destruct (Js.test_any emergencyWords raw); simpl; [|now split].
  split.
  - apply Qle_trans with (snd pc); [exact Hlo | apply Math_max_l].
  - apply Math_max_lub; [exact Hhi | lra].
Qed.

(** When the emergency pattern matches the raw lowercased text, the
    normal form is not empty, so the override is reached and decides. *)
Lemma override_fires (model : ModelT) (text : string) :
  Js.test_any emergencyWords (Js.toLowerCase text) = true ->
  priority (predictRecord model text) = "Critical" /\
  0.85 <= confidence (predictRecord model text).
Proof.
  intros H. unfold predictRecord.
  rewrite (predictRecord_traced_run model text
             (emergency_clean_nonempty text H)).
  cbn [snd priority confidence]. unfold overridden. rewrite H.
  cbn [fst snd]. split; [reflexivity|].
  apply (toFixed2_lower 85). apply Math_max_r.
Qed.

Lemma toFib_in_fib (score : Q) : In (toFib score) fib.
Proof.
  unfold toFib, thresholds, fib. cbn [List.length toFib_loop nth].
  repeat match goal with
         | |- context [Qle_bool score ?t] => destruct (Qle_bool score t)
         end; simpl; tauto.
Qed.

Lemma estimateHoursFn_ge_3 (points : Z) (text : string) :
  In points fib -> (3 <= estimateHoursFn points text)%Z.
Proof.
  intros Hin. unfold estimateHoursFn.
  destruct (Js.test_any uncertaintyWords (clean text));
    destruct (Js.test_any simplicityWords (clean text));
    destruct (Js.test_any coordinationWords (clean text));
    unfold fib in Hin; simpl in Hin;
    repeat (destruct Hin as [<- | Hin]; [vm_compute; discriminate|]);
    destruct Hin.
Qed.

(** C1. Whenever the raw (lowercased, not normalised) text matches the
    emergency pattern, [predictRecord] answers priority Critical with a
    confidence of at least 0.85, whatever the classifier ranks. *)
Theorem emergency_override_wins (model : ModelT) (text : string) :
  Js.test_any emergencyWords (Js.toLowerCase text) = true ->
  priority (predictRecord model text) = "Critical" /\
  0.85 <= confidence (predictRecord model text).
Proof. apply override_fires. Qed.

Lemma emergency_override_wins_witness :
  priority (predictRecord (constantModel [("Low", 0.9); ("High", 0.1)])
              "Production OUTAGE: nobody can log in") = "Critical" /\
  0.85 <= confidence
            (predictRecord (constantModel [("Low", 0.9); ("High", 0.1)])
               "Production OUTAGE: nobody can log in").
Proof.
  apply (emergency_override_wins
           (constantModel [("Low", 0.9); ("High", 0.1)])
           "Production OUTAGE: nobody can log in").
  vm_compute. reflexivity.
Defined.

(** C8. Whenever the raw lowercased text contains [down] anywhere, also
    inside a longer word such as dropdown, markdown or shutdown, the
    override fires: priority Critical and confidence at least 0.85. *)
Theorem down_substring_triggers_override (model : ModelT) (text : string) :
  Js.includes "down" (Js.toLowerCase text) = true ->
  priority (predictRecord model text) = "Critical" /\
  0.85 <= confidence (predictRecord model text).
Proof.
  intros H. apply override_fires.
  unfold Js.test_any, emergencyWords. cbn [existsb].
  rewrite H. now rewrite !orb_true_r.
Qed.

Lemma down_substring_triggers_override_witness :
  priority (predictRecord (constantModel [("Low", 0.9); ("Medium", 0.1)])
              "Dropdown menu loses focus") = "Critical" /\
  0.85 <= confidence
            (predictRecord (constantModel [("Low", 0.9); ("Medium", 0.1)])
               "Dropdown menu loses focus").
Proof.
  apply (down_substring_triggers_override
           (constantModel [("Low", 0.9); ("Medium", 0.1)])
           "Dropdown menu loses focus").
  vm_compute. reflexivity.
Defined.

(** C2. For every text and every classifier, the story points of the
    result are one of 1, 2, 3, 5, 8, 13, the hours are at least 1 and the
    confidence lies between 0.4 and 0.99. *)
Theorem prediction_ranges (model : ModelT) (text : string) :
  In (storyPoints (predictRecord model text)) [1; 2; 3; 5; 8; 13]%Z /\
  (1 <= estimateHours (predictRecord model text))%Z /\
  0.4 <= confidence (predictRecord model text) <= 0.99.
Proof.
  unfold predictRecord.
  destruct (string_dec (clean text) "") as [He | Hne].
  - rewrite (predictRecord_traced_empty model text He). simpl.
    repeat split; try lia; try lra.
  - rewrite (predictRecord_traced_run model text Hne).
    cbn [snd storyPoints estimateHours confidence].
    split; [apply toFib_in_fib|]. split.
    + pose proof (estimateHoursFn_ge_3 _ text
                    (toFib_in_fib (scoreComplexity text))). lia.
    + destruct (overridden_range (Js.toLowerCase text) (ranked model text)
                  (classify_range _)) as [Hlo Hhi].
      split.
      * apply Qle_trans with (50 # 100); [lra|].
        apply (toFixed2_lower 50). lra.
      * apply (toFixed2_upper 99). lra.
Qed.

Lemma toFixed2_nearest (x : Q) :
  x - (1 # 200) <= Js.toFixed2 x <= x + (1 # 200).
Proof.
  unfold Js.toFixed2.
  pose proof (Qfloor_le (x * 100 + (1 # 2))) as Hlo.
  pose proof (Qlt_floor (x * 100 + (1 # 2))) as Hhi.
  set (n := Qfloor (x * 100 + (1 # 2))) in *.
  rewrite inject_Z_plus in Hhi. change (inject_Z 1) with 1 in Hhi.
  assert (E : n # 100 == inject_Z n * (1 # 100)).
  { unfold Qeq. simpl. lia. }
  rewrite E. split; lra.
Qed.

(** C9. The confidence of every result is rounded to two decimal places
    before it is returned: it is a whole number of hundredths, and on a
    text with a non-empty normal form it is a nearest hundredth of the
    confidence computed so far (the clamped quotient of the ranking, or
    Medium's 0.6, raised to 0.85 by the override), at most half a
    hundredth away from it. *)
Theorem confidence_two_decimals (model : ModelT) (text : string) :
  (exists n : Z, confidence (predictRecord model text) == n # 100) /\
  (clean text <> "" ->
   let pc := classify (getClassifications (classifier model) (clean text)) in
   let computed :=
     if Js.test_any
          ["sev1";"p0";"outage";"down";"cannot login";"payment failed";
           "data loss";"security";"breach"] (Js.toLowerCase text)
     then Js.Math_max (snd pc) 0.85
     else snd pc in
   computed - (1 # 200) <= confidence (predictRecord model text)
   <= computed + (1 # 200)).
Proof.
  unfold predictRecord.
  destruct (string_dec (clean text) "") as [He | Hne].
  - rewrite (predictRecord_traced_empty model text He).
    split; [exists 40%Z; reflexivity | contradiction].
  - rewrite (predictRecord_traced_run model text Hne).
    cbn [snd confidence]. split.
    + unfold Js.toFixed2. eexists. reflexivity.
    + intros _. unfold overridden, ranked.
      change emergencyWords
        with ["sev1";"p0";"outage";"down";"cannot login";"payment failed";
              "data loss";"security";"breach"].
      destruct (Js.test_any _ (Js.toLowerCase text));
        apply toFixed2_nearest.
Qed.

Lemma confidence_two_decimals_witness :
  0.748 - (1 # 200)
  <= confidence (predictRecord (constantModel [("High", 0.748); ("Low", 0.252)])
                   "Slow response on search page")
  <= 0.748 + (1 # 200).
Proof.
  apply (confidence_two_decimals
           (constantModel [("High", 0.748); ("Low", 0.252)])
           "Slow response on search page").
  vm_compute. discriminate.
Defined.

End PredictFacts.


(* ================================================================== *)
(** ** Complexity score, story points and hours                        *)
(* ================================================================== *)

Module EstimateFacts.
Import Model Spec StringFacts CleanFacts NumFacts.

Lemma Qle_bool_false_mono (s s' th : Q) :
  s <= s' -> Qle_bool s th = false -> Qle_bool s' th = false.
Proof.
  intros Hle Hs. destruct (Qle_bool s' th) eqn:E; [|reflexivity].
  apply Qle_bool_iff in E.
  assert (Hs' : Qle_bool s th = true)
    by (apply Qle_bool_iff; now apply Qle_trans with s').
  congruence.
Qed.

(** C10. The mapping from complexity score to story points is monotone:
    a higher score never yields fewer story points. *)
Theorem toFib_monotone (s s' : Q) :
  s <= s' -> (toFib s <= toFib s')%Z.
Proof.
  intros Hle. unfold toFib. cbn [List.length thresholds toFib_loop].
  unfold thresholds, fib. cbn [nth].
  repeat match goal with
         | |- context [Qle_bool s ?t] =>
             let E := fresh "E" in
             destruct (Qle_bool s t) eqn:E;
             [ repeat match goal with
                      | |- context [Qle_bool s' ?u] => destruct (Qle_bool s' u)
                      end; lia
             | rewrite (Qle_bool_false_mono s s' t Hle E) ]
         end.
  lia.
Qed.

Lemma toFib_monotone_witness :
  0.2 <= 0.9 /\ (toFib 0.2 <= toFib 0.9)%Z.
Proof.
  split; [lra | apply (toFib_monotone 0.2 0.9); lra].
Defined.

(** The loop of [addIf] adds the weight, in its order, once for every
    keyword of the list that occurs in the text. *)
Lemma addIf_repeat (t : string) (list : list string) (w score : Q) :
  addIf t list w score = fold_left Qplus (repeat w (hits t list)) score.
Proof.
  unfold addIf, hits. revert score.
  induction list as [|k list IH]; intros score; [reflexivity|].
  cbn [fold_left filter]. rewrite IH.
  destruct (Js.includes k t); reflexivity.
Qed.

(** C4, as the code has it.  Every keyword of the four lists that occurs
    in the normalised text adds the weight of its list, once per keyword
    and not once per list: starting from the length score
    min(1, len / 120), with len the number of words of the normalised text
    and 1 when it is empty, the code adds -0.20 for each tiny keyword that
    occurs, then +0.05 for each small one, +0.15 for each medium one and
    +0.35 for each large one, in this order, and clamps the sum to
    [0, 1.5].  The equation keeps the order of the additions, so it reads
    the same on doubles. *)
Theorem score_adds_weight_per_keyword (text : string) :
  let t := clean text in
  let len := Nat.max 1 (List.length (Js.split " " t)) in
  scoreComplexity text =
    Js.Math_max 0 (Js.Math_min 1.5
      (fold_left Qplus
         (repeat (-0.2) (hits t (tiny complexityKeywords)) ++
          repeat 0.05 (hits t (small complexityKeywords)) ++
          repeat 0.15 (hits t (medium complexityKeywords)) ++
          repeat 0.35 (hits t (large complexityKeywords)))%list
         (Js.Math_min 1 (inject_Z (Z.of_nat len) / 120))))
  /\ 0 <= scoreComplexity text <= 1.5.
Proof.
  intros t len. split.
  - unfold scoreComplexity. fold t.
    rewrite !addIf_repeat, !fold_left_app. reflexivity.
  - unfold scoreComplexity. split.
    + apply Math_max_l.
    + apply Math_max_lub; [lra | apply Math_min_l].
Qed.

(** C4, as the claim has it, fails: three keywords of the large list add
    three times 0.35, where once per list would add 0.35. *)
Lemma score_not_once_per_set :
  scoreComplexity "payment security outage" == 1.075 /\
  scoreOncePerSet "payment security outage" == 0.375 /\
  ~ scoreComplexity "payment security outage"
    == scoreOncePerSet "payment security outage".
Proof.
  split; [vm_compute; reflexivity|].
  split; [vm_compute; reflexivity|].
  intros H. vm_compute in H. discriminate H.
Qed.

Lemma includes_lower (w text : string) :
  Js.toLowerCase w = w ->
  Js.includes w text = true ->
  Js.includes w (Js.toLowerCase text) = true.
Proof.
  intros Hw H. apply includes_occurs. rewrite <- Hw.
  apply toLowerCase_occurs. now apply includes_occurs.
Qed.

Lemma estimateHoursFn_spec (points : Z) (text : string) (baseHours : Q) :
  lookup points base = Some baseHours ->
  estimateHoursFn points text = hoursSpec baseHours (clean text).
Proof.
  intros Hb. unfold estimateHoursFn, hoursSpec, multiplier, Js.Math_round.
  rewrite Hb.
  destruct (Js.test_any uncertaintyWords (clean text));
    destruct (Js.test_any simplicityWords (clean text));
    destruct (Js.test_any coordinationWords (clean text));
    apply Qfloor_comp; ring.
Qed.

(** C5. For the effort values 1, 2, 3, 5, 8, 13 with their base hours 4,
    6, 8, 16, 32, 56, the hour estimate is the base value times 1.30 when
    an uncertainty keyword occurs in the normalised text, times 0.80 when
    a simplicity keyword occurs, times 1.25 when a coordination keyword
    occurs, all that apply composed, and rounded to the nearest hour
    (halves up).  A text that contains well-defined gets the factor 0.80
    and a text that contains cross-team the factor 1.25: normalisation
    keeps the hyphenated words. *)
Theorem hours_compose_multipliers (points : Z) (baseHours : Q) (text : string) :
  In (points, baseHours)
     [(1%Z, 4); (2%Z, 6); (3%Z, 8); (5%Z, 16); (8%Z, 32); (13%Z, 56)] ->
  let t := clean text in
  let uncertain :=
    Js.test_any ["spike";"investigate";"unknown";"legacy";"undocumented"] t in
  let simple :=
    Js.test_any ["well-defined";"simple";"trivial";"straightforward"] t in
  let coordinated :=
    Js.test_any ["cross-team";"multiple services";"coordination";"dependency"]
      t in
  estimateHoursFn points text =
    Qfloor (baseHours * (if uncertain then 1.3 else 1)
                      * (if simple then 0.8 else 1)
                      * (if coordinated then 1.25 else 1) + (1 # 2))
  /\ (Js.includes "well-defined" text = true ->
      simple = true /\
      estimateHoursFn points text =
        Qfloor (baseHours * (if uncertain then 1.3 else 1) * 0.8
                          * (if coordinated then 1.25 else 1) + (1 # 2)))
  /\ (Js.includes "cross-team" text = true ->
      coordinated = true /\
      estimateHoursFn points text =
        Qfloor (baseHours * (if uncertain then 1.3 else 1)
                          * (if simple then 0.8 else 1) * 1.25 + (1 # 2))).
Proof.
  intros Hin t uncertain simple coordinated.
  assert (Hb : lookup points base = Some baseHours).
  { cbn [In] in Hin.
    repeat (destruct Hin as [Hin | Hin];
            [injection Hin as <- <-; reflexivity|]).
    destruct Hin. }
  assert (Hmain : estimateHoursFn points text =
    Qfloor (baseHours * (if uncertain then 1.3 else 1)
                      * (if simple then 0.8 else 1)
                      * (if coordinated then 1.25 else 1) + (1 # 2))).
  { rewrite (estimateHoursFn_spec points text baseHours Hb).
    reflexivity. }
  split; [exact Hmain|]. split; intros H.
  - assert (Hs : simple = true).
    { subst simple t. unfold Js.test_any. cbn [existsb].
      rewrite (clean_keeps_includes "well-defined" text eq_refl
                 (includes_lower _ _ eq_refl H)).
      reflexivity. }
    split; [exact Hs|]. rewrite Hmain, Hs. reflexivity.
  - assert (Hc : coordinated = true).
    { subst coordinated t. unfold Js.test_any. cbn [existsb].
      rewrite (clean_keeps_includes "cross-team" text eq_refl
                 (includes_lower _ _ eq_refl H)).
      reflexivity. }
    split; [exact Hc|]. rewrite Hmain, Hc. reflexivity.
Qed.

Lemma hours_compose_multipliers_witness :
  estimateHoursFn 5 "Legacy export, cross-team but well-defined" = 21%Z /\
  estimateHoursFn 2 "Needs coordination" = 8%Z /\
  estimateHoursFn 13 "A simple rename" = 45%Z.
Proof.
  split; [|split].
  - rewrite (proj1 (hours_compose_multipliers
                      5 16 "Legacy export, cross-team but well-defined"
                      ltac:(cbn; tauto))).
    vm_compute. reflexivity.
  - rewrite (proj1 (hours_compose_multipliers 2 6 "Needs coordination"
                      ltac:(cbn; tauto))).
    vm_compute. reflexivity.
  - rewrite (proj1 (hours_compose_multipliers 13 56 "A simple rename"
                      ltac:(cbn; tauto))).
    vm_compute. reflexivity.
Defined.

End EstimateFacts.


(* ================================================================== *)
(** ** The short circuit and the scenario of the specification         *)
(* ================================================================== *)

Module ScenarioFacts.
Import Model Server Spec StringFacts CleanFacts NumFacts PredictFacts.

(** The row of the upload carries what [predictRecord] answers for the
    trimmed text of the record, and makes the same calls. *)
Lemma predictRow_calls (model : ModelT) (idx : nat) (rec : TextRecord) :
  fst (predictRow model idx rec)
  = fst (predictRecord_traced model (rowText rec)) /\
  Priority (snd (predictRow model idx rec))
  = priority (predictRecord model (rowText rec)) /\
  Confidence (snd (predictRow model idx rec))
  = confidence (predictRecord model (rowText rec)).
Proof.
  unfold predictRow, predictRecord.
  destruct (predictRecord_traced model (rowText rec)) as [log result].
  repeat split.
Qed.


Lemma gateway_rationale (p : string) :
  buildRationale p 3 8 (Js.toLowerCase gatewayText)
  = "Priority " ++ p ++
    " based on cues: revenue impact. Story Points ~3, Est ~8h.".
Proof. vm_compute. reflexivity. Qed.

Lemma gateway_run (model : ModelT) :
  predictRecord model gatewayText =
  {| priority := fst (ranked model gatewayText);
     storyPoints := 3;
     estimateHours := 8;
     confidence := Js.toFixed2 (snd (ranked model gatewayText));
     rationale := "Priority " ++ fst (ranked model gatewayText) ++
       " based on cues: revenue impact. Story Points ~3, Est ~8h." |}.
Proof.
  unfold predictRecord.
  rewrite predictRecord_traced_run by (vm_compute; discriminate).
  cbn [snd]. unfold overridden.
  replace (Js.test_any emergencyWords (Js.toLowerCase gatewayText))
    with false by (vm_compute; reflexivity).
  replace (toFib (scoreComplexity gatewayText)) with 3%Z
    by (vm_compute; reflexivity).
  replace (estimateHoursFn 3 gatewayText) with 8%Z
    by (vm_compute; reflexivity).
  now rewrite gateway_rationale.
Qed.

(** On the text of the scenario no alternative of the emergency pattern
    matches: the pattern has [payment failed], and neither [payment] nor
    [checkout].  Priority and confidence are then the classifier's. *)
Lemma gateway_override_silent :
  Js.test_any emergencyWords (Js.toLowerCase gatewayText) = false.
Proof. vm_compute. reflexivity. Qed.

End ScenarioFacts.


(* ================================================================== *)
(** ** The chat resolver                                               *)
(* ================================================================== *)

Module ChatFacts.
Import Model Server Spec StringFacts.

Lemma whyMatch_occurs (msg digits : string) :
  whyMatch msg = Some digits -> occurs "why" msg.
Proof.
  induction msg as [|c r IH]; intros H.
  - discriminate H.
  - cbn [whyMatch] in H.
    destruct (Js.startsWith "why" (String c r)) eqn:E.
    + apply startsWith_occurs in E. destruct E as [post E].
      exists "", post. exact E.
    + apply occurs_cons, IH, H.
Qed.

(** Lowercasing does not turn white space into anything else. *)
Lemma is_space_toLowerChar (c : ascii) :
  Js.is_space c = true -> Js.toLowerChar c = c.
Proof.
  destruct c as [[] [] [] [] [] [] [] []]; vm_compute;
    intros H; first [reflexivity | discriminate H].
Qed.

Lemma trimStart_keeps (pre : string) (c : ascii) (rest : string) :
  Js.is_space c = false ->
  exists pre', Js.trimStart (pre ++ String c rest) = pre' ++ String c rest.
Proof.
  intros Hc. induction pre as [|p pre IH].
  - exists "". simpl. now rewrite Hc.
  - cbn [append Js.trimStart]. destruct (Js.is_space p).
    + exact IH.
    + now exists (String p pre).
Qed.

Lemma trimEnd_keeps (x : string) (c : ascii) (y : string) :
  Js.is_space c = false ->
  Js.trimEnd (x ++ String c y) = x ++ String c (Js.trimEnd y).
Proof.
  intros Hc. induction x as [|p x IH].
  - cbn [append Js.trimEnd]. destruct (Js.trimEnd y); [now rewrite Hc | reflexivity].
  - cbn [append Js.trimEnd]. rewrite IH.
    destruct x; reflexivity.
Qed.

(** A message in which the pattern finds [why] has at least three
    characters after trimming, so it passes the validation. *)
Lemma whyMatch_valid (message digits : string) :
  whyMatch (Js.toLowerCase message) = Some digits ->
  (3 <= String.length (Js.trim message))%nat.
Proof.
  intros H. apply whyMatch_occurs in H. destruct H as [pre [post H]].
  apply toLowerCase_app_inv in H. destruct H as [a [b [-> [_ Hb]]]].
  destruct b as [|c1 [|c2 [|c3 b]]]; try discriminate Hb.
  cbn in Hb. injection Hb as H1 H2 H3 _.
  assert (S1 : Js.is_space c1 = false).
  { destruct (Js.is_space c1) eqn:E; [|reflexivity].
    rewrite (is_space_toLowerChar c1 E) in H1. subst c1. discriminate E. }
  assert (S3 : Js.is_space c3 = false).
  { destruct (Js.is_space c3) eqn:E; [|reflexivity].
    rewrite (is_space_toLowerChar c3 E) in H3. subst c3. discriminate E. }
  unfold Js.trim.
  destruct (trimStart_keeps a c1 (String c2 (String c3 b)) S1) as [a' ->].
  change (a' ++ String c1 (String c2 (String c3 b)))
    with (a' ++ (String c1 (String c2 EmptyString)) ++ String c3 b).
  rewrite <- app_assoc_s, (trimEnd_keeps _ c3 b S3).
  rewrite !length_app_s. simpl. lia.
Qed.

Lemma laterIntents_replies
  (toFixed : Q -> nat -> string) (ds : list DataRow) (msg : string) :
  exists reply, laterIntents toFixed ds msg = Reply reply.
Proof.
  unfold laterIntents.
  destruct (Js.test_any distributionWords msg); [eexists; reflexivity|].
  destruct (Js.test_any helpWords msg); [eexists; reflexivity|].
  destruct (Js.test_any riskyWords msg); [eexists; reflexivity|].
  destruct (Js.test_any averageWords msg); eexists; reflexivity.
Qed.

(** C7. On a non-empty data set, a message that matches the "why N"
    pattern with N below 1 or above the number of rows is no error: the
    explain-row block does not answer and the later blocks are tried in
    their order (distribution, help, top risky, averages), down to the
    fixed fallback reply when none of them matches. *)
Theorem why_out_of_range_falls_through
  (showNumber : Q -> string) (toFixed : Q -> nat -> string)
  (ds : list DataRow) (message digits : string) :
  ds <> [] ->
  whyMatch (Js.toLowerCase message) = Some digits ->
  (parseInt digits < 1 \/ Z.of_nat (List.length ds) < parseInt digits)%Z ->
  let msg := Js.toLowerCase message in
  let answer := chat showNumber toFixed ds (Some message) in
  (exists reply, answer = Reply reply) /\
  answer =
    (if Js.test_any distributionWords msg
     then Reply (distributionReply toFixed ds)
     else if Js.test_any helpWords msg then Reply helpReply
     else if Js.test_any riskyWords msg then Reply (topRiskyReply ds)
     else if Js.test_any averageWords msg then Reply (averagesReply toFixed ds)
     else Reply fallbackReply) /\
  (Js.test_any (distributionWords ++ helpWords ++ riskyWords ++ averageWords)
     msg = false ->
   answer = Reply fallbackReply).
Proof.
  intros Hds Hwhy Hrange msg answer.
  assert (Hanswer : answer = laterIntents toFixed ds msg).
  { subst answer msg. unfold chat.
    pose proof (whyMatch_valid message digits Hwhy) as Hlen.
    destruct (message =? "") eqn:E.
    { apply String.eqb_eq in E. subst message. discriminate Hwhy. }
    replace (String.length (Js.trim message) <? 2)%nat with false
      by (symmetry; apply Nat.ltb_ge; lia).
    cbn [orb].
    destruct ds as [|r ds']; [congruence|].
    unfold explainRow. rewrite Hwhy.
    replace ((0 <=? parseInt digits - 1)
             && (parseInt digits - 1 <? Z.of_nat (List.length (r :: ds'))))%Z
      with false; [reflexivity|].
    symmetry. apply andb_false_iff.
    destruct Hrange; [left; apply Z.leb_gt | right; apply Z.ltb_ge]; lia. }
  split; [rewrite Hanswer; apply laterIntents_replies|].
  split; [exact Hanswer|].
  intros Hnone. rewrite Hanswer. unfold laterIntents.
  unfold Js.test_any in *. rewrite !existsb_app in Hnone.
  rewrite !orb_false_iff in Hnone.
  destruct Hnone as [H1 [H2 [H3 H4]]]. now rewrite H1, H2, H3, H4.
Qed.

Lemma why_out_of_range_falls_through_witness :
  chat (fun _ => "0.9") (fun _ _ => "3.00")
    [ {| Row := 1; Summary := "Checkout is down"; Description := "";
         Priority := "Critical"; StoryPoints := 1; EstimateHours := 4;
         Confidence := 0.9; Rationale := "r1" |};
      {| Row := 2; Summary := "Fix typo"; Description := "";
         Priority := "Low"; StoryPoints := 1; EstimateHours := 4;
         Confidence := 0.9; Rationale := "r2" |};
      {| Row := 3; Summary := "Add export"; Description := "";
         Priority := "Medium"; StoryPoints := 1; EstimateHours := 4;
         Confidence := 0.9; Rationale := "r3" |} ]
    (Some "Why 10")
  = Reply fallbackReply.
Proof.
  apply (why_out_of_range_falls_through (fun _ => "0.9") (fun _ _ => "3.00")
           _ "Why 10" "10").
  - discriminate.
  - reflexivity.
  - right. vm_compute. reflexivity.
  - reflexivity.
Defined.

(** The scenario of the specification, for any three rows. *)
Lemma why_10_of_three_rows
  (showNumber : Q -> string) (toFixed : Q -> nat -> string)
  (r1 r2 r3 : DataRow) :
  chat showNumber toFixed [r1; r2; r3] (Some "why 10") = Reply fallbackReply.
Proof. reflexivity. Qed.

End ChatFacts.


(* ================================================================== *)
(** ** Further properties: normalisation                               *)
(* ================================================================== *)

Module NormalFacts.
Import Model Spec Notions StringFacts CleanFacts PredictFacts.

Lemma toLowerChar_idem (c : ascii) :
  Js.toLowerChar (Js.toLowerChar c) = Js.toLowerChar c.
Proof. destruct c as [[] [] [] [] [] [] [] []]; vm_compute; reflexivity. Qed.

Lemma toLowerCase_idem (s : string) :
  Js.toLowerCase (Js.toLowerCase s) = Js.toLowerCase s.
Proof.
  induction s as [|c s IH]; simpl; [reflexivity|].
  now rewrite toLowerChar_idem, IH.
Qed.

Lemma clean_toLowerCase (text : string) :
  clean (Js.toLowerCase text) = clean text.
Proof. unfold clean. now rewrite toLowerCase_idem. Qed.

Lemma pieces_head (c : ascii) (r : string) :
  exists t ts, Natural.pieces (String c r) = String c t :: ts.
Proof.
  cbn [Natural.pieces]. unfold Natural.glue.
  destruct r as [|c' r']; [now exists "", (Natural.pieces "")|].
  destruct (Natural.pieces (String c' r')) as [|t0 ts0];
    [now exists "", []|].
  destruct (Natural.same_run c c'); [now exists t0, ts0|].
  now exists "", (t0 :: ts0).
Qed.

(** Every piece that the tokenizer cuts is one run. *)
Lemma pieces_oneRun (s : string) : Forall (fun t => oneRun t = true) (Natural.pieces s).
Proof.
  induction s as [|c r IH]; [constructor|].
  cbn [Natural.pieces]. unfold Natural.glue.
  destruct r as [|c' r'].
  - constructor; [reflexivity | exact IH].
  - destruct (pieces_head c' r') as [t [ts E]]. rewrite E in IH |- *.
    inversion IH as [|x l Ht Hts]; subst.
    destruct (Natural.same_run c c') eqn:Hrun.
    + constructor; [|exact Hts].
      change (oneRun (String c (String c' t)))
        with (Natural.same_run c c' && oneRun (String c' t)).
      now rewrite Hrun, Ht.
    + constructor; [reflexivity | exact IH].
Qed.

Lemma pieces_allChars (p : ascii -> bool) (s : string) :
  allChars p s = true ->
  Forall (fun t => allChars p t = true) (Natural.pieces s).
Proof.
  induction s as [|c r IH]; intros H; [constructor|].
  cbn [allChars] in H. apply andb_true_iff in H. destruct H as [Hc Hr].
  specialize (IH Hr).
  cbn [Natural.pieces]. unfold Natural.glue.
  destruct r as [|c' r'].
  - constructor; [cbn; now rewrite Hc | exact IH].
  - destruct (Natural.pieces (String c' r')) as [|t ts].
    + constructor; [cbn; now rewrite Hc | constructor].
    + inversion IH as [|x l Ht Hts]; subst.
      destruct (Natural.same_run c c').
      * constructor; [cbn [allChars]; now rewrite Hc, Ht | exact Hts].
      * constructor; [cbn; now rewrite Hc | exact IH].
Qed.

Lemma same_run_space_r (c : ascii) : Natural.same_run c " " = false.
Proof. unfold Natural.same_run. destruct (Natural.charKind c); reflexivity. Qed.

Lemma same_run_space_l (c : ascii) : Natural.same_run " " c = false.
Proof. reflexivity. Qed.

Lemma oneRun_noSpace (t : string) :
  oneRun t = true -> t <> " " -> noSpace t = true.
Proof.
  induction t as [|c r IH]; [discriminate|].
  intros Hrun Hne. destruct r as [|c' r'].
  - cbn. destruct (Ascii.eqb c " ") eqn:E; [|reflexivity].
    apply Ascii.eqb_eq in E. subst c. congruence.
  - cbn [oneRun] in Hrun. apply andb_true_iff in Hrun.
    destruct Hrun as [Hcc Hr].
    cbn [noSpace]. apply andb_true_iff. split.
    + destruct (Ascii.eqb c " ") eqn:E; [|reflexivity].
      apply Ascii.eqb_eq in E. subst c. discriminate Hcc.
    + apply IH; [exact Hr|]. intros E. injection E as -> _.
      rewrite same_run_space_r in Hcc. discriminate Hcc.
Qed.

Lemma allChars_lower (s : string) :
  allChars (fun c => negb (Js.is_upper c)) (Js.toLowerCase s) = true.
Proof.
  induction s as [|c s IH]; [reflexivity|].
  cbn [Js.toLowerCase allChars]. rewrite IH, andb_true_r.
  destruct c as [[] [] [] [] [] [] [] []]; vm_compute; reflexivity.
Qed.

Lemma not_upper_fixed (t : string) :
  allChars (fun c => negb (Js.is_upper c)) t = true -> Js.toLowerCase t = t.
Proof.
  induction t as [|c r IH]; [reflexivity|].
  cbn [allChars Js.toLowerCase]. intros H.
  apply andb_true_iff in H. destruct H as [Hc Hr].
  rewrite (IH Hr). unfold Js.toLowerChar.
  apply negb_true_iff in Hc. now rewrite Hc.
Qed.

Lemma cleanTokens_good (text : string) : Forall goodToken (cleanTokens text).
Proof.
  apply Forall_forall. intros t Hin. unfold cleanTokens in Hin.
  apply filter_In in Hin. destruct Hin as [Hin Hstop].
  apply filter_In in Hin. destruct Hin as [Hin Han].
  unfold Natural.tokenize in Hin.
  apply filter_In in Hin. destruct Hin as [Hin Hsp].
  pose proof (pieces_oneRun (Js.toLowerCase text)) as H1.
  pose proof (pieces_allChars _ _ (allChars_lower text)) as H2.
  rewrite Forall_forall in H1, H2.
  repeat split.
  - now apply H1.
  - apply oneRun_noSpace; [now apply H1|].
    intros ->. discriminate Hsp.
  - apply not_upper_fixed. now apply H2.
  - exact Han.
  - now apply negb_true_iff.
Qed.

Lemma pieces_one (t : string) : oneRun t = true -> Natural.pieces t = [t].
Proof.
  induction t as [|c r IH]; [discriminate|].
  intros H. destruct r as [|c' r']; [reflexivity|].
  change (oneRun (String c (String c' r')))
    with (Natural.same_run c c' && oneRun (String c' r')) in H.
  apply andb_true_iff in H. destruct H as [Hcc Hr].
  cbn [Natural.pieces] in IH |- *. rewrite (IH Hr).
  unfold Natural.glue. now rewrite Hcc.
Qed.

Lemma pieces_space (r : string) :
  Natural.pieces (String " " r) = " " :: Natural.pieces r.
Proof.
  cbn [Natural.pieces]. unfold Natural.glue.
  destruct r as [|c' r']; [reflexivity|].
  destruct (Natural.pieces (String c' r')); reflexivity.
Qed.

(** A space cuts the text: the pieces before it and after it do not mix. *)
Lemma pieces_app_space (a r : string) :
  Natural.pieces (a ++ String " " r)
  = (Natural.pieces a ++ " " :: Natural.pieces r)%list.
Proof.
  induction a as [|c a IH]; [apply pieces_space|].
  cbn [append Natural.pieces]. rewrite IH.
  unfold Natural.glue. destruct a as [|c' a'].
  - cbn [append Natural.pieces app]. now rewrite same_run_space_r.
  - cbn [append].
    destruct (pieces_head c' a') as [t [ts E]]. rewrite E.
    cbn [app]. destruct (Natural.same_run c c'); reflexivity.
Qed.

Lemma tokenize_join (l : list string) :
  Forall goodToken l -> Natural.tokenize (Js.join " " l) = l.
Proof.
  induction l as [|t l IH]; intros H; [reflexivity|].
  inversion H as [|x l' Ht Hl]; subst.
  destruct Ht as [Hrun [Hns _]].
  assert (Hsp : (t =? " ") = false).
  { destruct (t =? " ") eqn:E; [|reflexivity].
    apply String.eqb_eq in E. subst t. discriminate Hns. }
  destruct l as [|u l].
  - cbn [Js.join]. unfold Natural.tokenize.
    rewrite (pieces_one t Hrun). cbn [filter]. now rewrite Hsp.
  - change (Js.join " " (t :: u :: l))
      with (t ++ String " " (Js.join " " (u :: l))).
    unfold Natural.tokenize in *.
    rewrite pieces_app_space, (pieces_one t Hrun).
    cbn [app filter]. rewrite Hsp. cbn [negb String.eqb Ascii.eqb].
    cbn. f_equal. apply IH, Hl.
Qed.

Lemma toLowerCase_join (l : list string) :
  Forall goodToken l -> Js.toLowerCase (Js.join " " l) = Js.join " " l.
Proof.
  induction l as [|t l IH]; intros H; [reflexivity|].
  inversion H as [|x l' Ht Hl]; subst.
  destruct Ht as [_ [_ [Hlow _]]].
  destruct l as [|u l]; [exact Hlow|].
  change (Js.join " " (t :: u :: l))
    with (t ++ " " ++ Js.join " " (u :: l)).
  rewrite !toLowerCase_app, Hlow, (IH Hl). reflexivity.
Qed.

Lemma filter_all {A} (f : A -> bool) (l : list A) :
  Forall (fun x => f x = true) l -> filter f l = l.
Proof.
  induction 1 as [|x l Hx Hl IH]; [reflexivity|].
  cbn. now rewrite Hx, IH.
Qed.

(** X1. Normalisation is idempotent: the normal form of a normal form is
    the normal form itself. *)
Theorem clean_idempotent (text : string) : clean (clean text) = clean text.
Proof.
  change (clean text) with (Js.join " " (cleanTokens text)).
  pose proof (cleanTokens_good text) as Hgood.
  unfold clean at 1.
  rewrite (toLowerCase_join _ Hgood), (tokenize_join _ Hgood).
  rewrite (filter_all test_alnum_hash), (filter_all _ (cleanTokens text));
    [reflexivity | |].
  - eapply Forall_impl; [|exact Hgood].
    intros t [_ [_ [_ [_ Hs]]]]. now rewrite Hs.
  - eapply Forall_impl; [|exact Hgood].
    intros t [_ [_ [_ [Ha _]]]]. exact Ha.
Qed.

Lemma split_noSpace (t : string) : noSpace t = true -> Js.split " " t = [t].
Proof.
  induction t as [|c r IH]; [reflexivity|].
  cbn [noSpace Js.split]. intros H.
  apply andb_true_iff in H. destruct H as [Hc Hr].
  apply negb_true_iff in Hc. rewrite Hc, (IH Hr). reflexivity.
Qed.

Lemma split_app_space (t r : string) :
  noSpace t = true ->
  Js.split " " (t ++ String " " r) = t :: Js.split " " r.
Proof.
  induction t as [|c t IH]; [reflexivity|].
  cbn [noSpace append Js.split]. intros H.
  apply andb_true_iff in H. destruct H as [Hc Hr].
  apply negb_true_iff in Hc. rewrite Hc, (IH Hr). reflexivity.
Qed.

Lemma split_join (l : list string) :
  Forall goodToken l -> l <> [] -> Js.split " " (Js.join " " l) = l.
Proof.
  induction l as [|t l IH]; intros H Hne; [congruence|].
  inversion H as [|x l' Ht Hl]; subst.
  destruct Ht as [_ [Hns _]].
  destruct l as [|u l]; [now apply split_noSpace|].
  change (Js.join " " (t :: u :: l))
    with (t ++ String " " (Js.join " " (u :: l))).
  rewrite (split_app_space _ _ Hns). f_equal.
  apply IH; [exact Hl | discriminate].
Qed.

Lemma join_empty (l : list string) :
  Forall goodToken l -> Js.join " " l = "" -> l = [].
Proof.
  intros H E. destruct l as [|t l]; [reflexivity|].
  inversion H as [|x l' [Hrun _] Hl]; subst.
  destruct t as [|c t]; [discriminate Hrun|].
  destruct l; discriminate E.
Qed.

Lemma split_clean (text : string) :
  clean text <> "" -> Js.split " " (clean text) = cleanTokens text.
Proof.
  intros Hne.
  change (clean text) with (Js.join " " (cleanTokens text)).
  apply split_join; [apply cleanTokens_good|].
  intros Hnil. apply Hne.
  change (clean text) with (Js.join " " (cleanTokens text)).
  now rewrite Hnil.
Qed.

(** X2. The words of a non-empty normal form, cut at the single spaces,
    are the tokens that normalisation kept: none is a stop word, each
    holds a letter a-z, a digit or a hash, each is in lower case and is one
    token of the tokenizer. *)
Theorem clean_words (text : string) :
  clean text <> "" ->
  Js.split " " (clean text) = cleanTokens text /\
  Forall (fun w => stopwords_has w = false /\ test_alnum_hash w = true /\
                   Js.toLowerCase w = w /\ Natural.tokenize w = [w])
         (Js.split " " (clean text)).
Proof.
  intros Hne.
  pose proof (cleanTokens_good text) as Hgood.
  pose proof (split_clean text Hne) as E.
  split; [exact E|]. rewrite E.
  eapply Forall_impl; [|exact Hgood].
  intros t Ht. pose proof Ht as [Hrun [Hns [Hlow [Ha Hs]]]].
  repeat split; try assumption.
  apply (tokenize_join [t]). now constructor.
Qed.

Lemma clean_words_witness :
  Js.split " " (clean "The API is DOWN, again!") = ["api"; "down"; "again"].
Proof.
  apply (clean_words "The API is DOWN, again!").
  vm_compute. discriminate.
Defined.

(** X3. The length score counts the kept tokens: it is n/120 for n
    tokens (1/120 when there is none), capped at 1, so it lies between
    1/120 and 1. *)
Theorem lengthScore_counts_tokens (text : string) :
  lengthScore (clean text)
  = Js.Math_min 1
      (inject_Z (Z.of_nat (Nat.max 1 (List.length (cleanTokens text)))) / 120)
  /\ 1 # 120 <= lengthScore (clean text) <= 1.
Proof.
  split.
  - unfold lengthScore.
    destruct (string_dec (clean text) "") as [E | Hne].
    + rewrite E.
      rewrite (join_empty _ (cleanTokens_good text) E). reflexivity.
    + now rewrite (split_clean text Hne).
  - unfold lengthScore. split; [|apply NumFacts.Math_min_l].
    apply NumFacts.Math_min_glb; [lra|].
    apply Qle_shift_div_l; [lra|].
    assert (H : (1 <= Z.of_nat
                        (Nat.max 1 (List.length (Js.split " " (clean text)))))%Z)
      by lia.
    rewrite Zle_Qle in H. change (inject_Z 1) with 1 in H. lra.
Qed.

End NormalFacts.

(* ================================================================== *)
(** ** Further properties: prediction and rationale                    *)
(* ================================================================== *)

Module PredictMore.
Import Model Spec Notions StringFacts CleanFacts NumFacts PredictFacts.
Import NormalFacts.

Lemma scoreComplexity_toLowerCase (text : string) :
  scoreComplexity (Js.toLowerCase text) = scoreComplexity text.
Proof. unfold scoreComplexity. now rewrite clean_toLowerCase. Qed.

Lemma estimateHoursFn_toLowerCase (points : Z) (text : string) :
  estimateHoursFn points (Js.toLowerCase text) = estimateHoursFn points text.
Proof. unfold estimateHoursFn. now rewrite clean_toLowerCase. Qed.

(** X4. The prediction does not depend on the letter case of the text:
    the text in lower case gets the same result. *)
Theorem predictRecord_case_insensitive (model : ModelT) (text : string) :
  predictRecord model (Js.toLowerCase text) = predictRecord model text.
Proof.
  unfold predictRecord.
  destruct (string_dec (clean text) "") as [E | Hne].
  - rewrite !predictRecord_traced_empty;
      [reflexivity | exact E | now rewrite clean_toLowerCase].
  - rewrite (predictRecord_traced_run model text Hne).
    rewrite (predictRecord_traced_run model (Js.toLowerCase text))
      by now rewrite clean_toLowerCase.
    cbn [snd]. unfold ranked.
    now rewrite toLowerCase_idem, clean_toLowerCase,
      scoreComplexity_toLowerCase, estimateHoursFn_toLowerCase.
Qed.


(** X6. A classifier that throws, or that yields no ranking, is no error:
    on a text with a non-empty normal form and no emergency keyword the
    result has priority Medium and confidence 0.6. *)
Theorem classifier_fault_gives_defaults (model : ModelT) (text : string) :
  clean text <> "" ->
  Js.test_any emergencyWords (Js.toLowerCase text) = false ->
  getClassifications (classifier model) (clean text) = None \/
  getClassifications (classifier model) (clean text) = Some [] ->
  priority (predictRecord model text) = "Medium" /\
  confidence (predictRecord model text) == 0.6.
Proof.
  intros Hne Hem Hfault. unfold predictRecord.
  rewrite (predictRecord_traced_run model text Hne).
  cbn [snd priority confidence]. unfold overridden, ranked.
  rewrite Hem. destruct Hfault as [-> | ->]; split; reflexivity.
Qed.

Lemma classifier_fault_gives_defaults_witness :
  priority (predictRecord failingModel "Add export to PDF") = "Medium" /\
  confidence (predictRecord failingModel "Add export to PDF") == 0.6.
Proof.
  apply (classifier_fault_gives_defaults failingModel "Add export to PDF").
  - vm_compute. discriminate.
  - reflexivity.
  - left. reflexivity.
Defined.

Lemma occurs_nonempty (w s : string) : w <> "" -> occurs w s -> s <> "".
Proof. intros Hw H ->. apply occurs_empty in H. contradiction. Qed.

Lemma cue_in (alternatives : list string) (name raw : string) :
  Js.test_any alternatives raw = true ->
  In name (cue alternatives name raw).
Proof. intros H. unfold cue. rewrite H. now left. Qed.

(** A cue that is collected is named in the rationale. *)
Lemma rationale_names (post fallback name : string) (cues : list string) :
  name <> "" -> In name cues ->
  occurs name
    ((if Js.join ", " cues =? "" then fallback else Js.join ", " cues)
     ++ post).
Proof.
  intros Hne Hin.
  pose proof (join_occurs ", " name cues Hin) as Hocc.
  pose proof (occurs_nonempty _ _ Hne Hocc) as Hj.
  apply String.eqb_neq in Hj. rewrite Hj.
  now apply occurs_app_l.
Qed.

(** X7. The rationale names every cue whose pattern matches the raw text:
    service outage for outage, down or unreachable; security risk for
    security, breach or encryption; revenue impact for payment or
    checkout; cosmetic for typo, copy, color or css; system integration
    for migration, schema, api or integration.  When no pattern matches
    it says general classification. *)
Theorem rationale_names_matching_cues
  (priority : string) (sp hours : Z) (raw : string) :
  let r := buildRationale priority sp hours raw in
  (Js.test_any ["outage";"down";"unreachable"] raw = true ->
   Js.includes "service outage" r = true) /\
  (Js.test_any ["security";"breach";"encryption"] raw = true ->
   Js.includes "security risk" r = true) /\
  (Js.test_any ["payment";"checkout"] raw = true ->
   Js.includes "revenue impact" r = true) /\
  (Js.test_any ["typo";"copy";"color";"css"] raw = true ->
   Js.includes "cosmetic" r = true) /\
  (Js.test_any ["migration";"schema";"api";"integration"] raw = true ->
   Js.includes "system integration" r = true) /\
  (Js.test_any ["outage";"down";"unreachable";"security";"breach";
                "encryption";"payment";"checkout";"typo";"copy";"color";
                "css";"migration";"schema";"api";"integration"] raw = false ->
   Js.includes "general classification" r = true).
Proof.
  intros r. subst r. unfold buildRationale.
  repeat split; intros H; apply includes_occurs.
  1-5: apply occurs_app_r, occurs_app_r, occurs_app_r;
       apply rationale_names; [discriminate|];
       rewrite !in_app_iff; auto 10 using cue_in.
  unfold Js.test_any in H. cbn [existsb] in H.
  rewrite !orb_false_iff in H.
  destruct H as (H1 & H2 & H3 & H4 & H5 & H6 & H7 & H8 & H9 & H10 & H11
                 & H12 & H13 & H14 & H15 & H16 & _).
  unfold cue, Js.test_any. cbn [existsb].
  rewrite H1, H2, H3, H4, H5, H6, H7, H8, H9, H10, H11, H12, H13, H14,
    H15, H16.
  cbn [orb app Js.join String.eqb].
  apply occurs_app_r, occurs_app_r, occurs_app_r, occurs_app_l, occurs_refl.
Qed.

Lemma rationale_names_matching_cues_witness :
  Js.includes "security risk"
    (buildRationale "High" 5 16 "api keys leaked: security breach") = true /\
  Js.includes "system integration"
    (buildRationale "High" 5 16 "api keys leaked: security breach") = true.
Proof.
  split;
    apply (rationale_names_matching_cues
             "High" 5 16 "api keys leaked: security breach");
    reflexivity.
Defined.

(** X8. On a text with a non-empty normal form the rationale quotes the
    result itself: the priority, the story points and the hours that it
    names are those of the same result. *)
Theorem rationale_quotes_result (model : ModelT) (text : string) :
  clean text <> "" ->
  let r := predictRecord model text in
  rationale r
  = buildRationale (priority r) (storyPoints r) (estimateHours r)
      (Js.toLowerCase text) /\
  Js.startsWith ("Priority " ++ priority r ++ " based on cues: ")
    (rationale r) = true /\
  Js.includes ("Story Points ~" ++ Js.show_int (storyPoints r) ++ ", Est ~"
               ++ Js.show_int (estimateHours r) ++ "h.") (rationale r) = true.
Proof.
  intros Hne r. subst r. unfold predictRecord.
  rewrite (predictRecord_traced_run model text Hne).
  cbn [snd priority storyPoints estimateHours rationale].
  split; [reflexivity|]. unfold buildRationale. split.
  - apply startsWith_occurs. eexists.
    rewrite !app_assoc_s. reflexivity.
  - apply includes_occurs.
    match goal with
    | |- occurs _ (?a ++ ?p ++ ?b ++ ?c ++ ?rest) =>
        exists (a ++ p ++ b ++ c ++ ". "), ""
    end.
    rewrite !app_assoc_s. cbn [append]. rewrite ?app_nil_r_s. reflexivity.
Qed.

Lemma rationale_quotes_result_witness :
  rationale (predictRecord failingModel "Fix typo in README")
  = "Priority Medium based on cues: cosmetic. Story Points ~1, Est ~4h.".
Proof.
  rewrite (proj1 (rationale_quotes_result failingModel "Fix typo in README"
                    ltac:(vm_compute; discriminate))).
  vm_compute. reflexivity.
Defined.

End PredictMore.

(* ================================================================== *)
(** ** Further properties: story points and hours                      *)
(* ================================================================== *)

Module EstimateMore.
Import Model Spec Notions StringFacts CleanFacts NumFacts.

(** X9. The buckets of [toFib]: 1 up to 0.15, 2 up to 0.3, 3 up to 0.5,
    5 up to 0.8, 8 up to 1.1 and 13 above 1.1.  The last threshold, 1.5,
    decides nothing: the loop and the final return both give 13. *)
Theorem toFib_buckets (s : Q) :
  (toFib s = 1%Z <-> s <= 0.15) /\
  (toFib s = 2%Z <-> 0.15 < s /\ s <= 0.3) /\
  (toFib s = 3%Z <-> 0.3 < s /\ s <= 0.5) /\
  (toFib s = 5%Z <-> 0.5 < s /\ s <= 0.8) /\
  (toFib s = 8%Z <-> 0.8 < s /\ s <= 1.1) /\
  (toFib s = 13%Z <-> 1.1 < s).
Proof.
  unfold toFib. cbn [List.length thresholds toFib_loop].
  unfold thresholds, fib. cbn [nth].
  repeat match goal with
         | |- context [Qle_bool s ?t] =>
             let E := fresh "E" in
             destruct (Qle_bool s t) eqn:E;
             [apply Qle_bool_iff in E | apply Qle_bool_false in E]
         end;
    repeat split; intros; try discriminate; try lra;
    match goal with
    | H : _ /\ _ |- _ => destruct H; lra
    end.
Qed.

(** X10. For an effort value of the scale the hour estimate lies between 3
    and 91 hours, whatever the text. *)
Theorem estimateHours_bounds (points : Z) (text : string) :
  In points fib ->
  (3 <= estimateHoursFn points text <= 91)%Z.
Proof.
  intros Hin. unfold estimateHoursFn.
  destruct (Js.test_any uncertaintyWords (clean text));
    destruct (Js.test_any simplicityWords (clean text));
    destruct (Js.test_any coordinationWords (clean text));
    unfold fib in Hin; simpl in Hin;
    repeat (destruct Hin as [<- | Hin];
            [vm_compute; split; discriminate|]);
    destruct Hin.
Qed.

Lemma estimateHours_bounds_witness :
  (3 <= estimateHoursFn 13 "Investigate legacy payment coordination" <= 91)%Z.
Proof.
  apply (estimateHours_bounds 13 "Investigate legacy payment coordination").
  unfold fib. simpl. tauto.
Defined.

(** X11. For one and the same text, more story points never give fewer
    hours. *)
Theorem estimateHours_monotone_in_points (p q : Z) (text : string) :
  In p fib -> In q fib -> (p <= q)%Z ->
  (estimateHoursFn p text <= estimateHoursFn q text)%Z.
Proof.
  intros Hp Hq Hle. unfold estimateHoursFn.
  destruct (Js.test_any uncertaintyWords (clean text));
    destruct (Js.test_any simplicityWords (clean text));
    destruct (Js.test_any coordinationWords (clean text));
    unfold fib in Hp, Hq; simpl in Hp, Hq;
    repeat (destruct Hp as [<- | Hp]);
    try (destruct Hp);
    repeat (destruct Hq as [<- | Hq]);
    try (destruct Hq);
    try (exfalso; lia);
    vm_compute; discriminate.
Qed.

Lemma estimateHours_monotone_in_points_witness :
  (estimateHoursFn 3 "Spike on the legacy API"
   <= estimateHoursFn 8 "Spike on the legacy API")%Z.
Proof.
  apply (estimateHours_monotone_in_points 3 8 "Spike on the legacy API");
    unfold fib; simpl; try tauto; lia.
Defined.

(** X12. The simplicity factor 0.80 and the coordination factor 1.25
    cancel: a text with keywords of both kinds gets the estimate of the
    base value and the uncertainty factor alone. *)
Theorem simplicity_and_coordination_cancel
  (points : Z) (text : string) (baseHours : Q) :
  lookup points base = Some baseHours ->
  Js.test_any simplicityWords (clean text) = true ->
  Js.test_any coordinationWords (clean text) = true ->
  estimateHoursFn points text
  = Js.Math_round
      (baseHours * multiplier (Js.test_any uncertaintyWords (clean text)) 1.3).
Proof.
  intros Hb Hs Hc. unfold estimateHoursFn, multiplier, Js.Math_round.
  rewrite Hb, Hs, Hc.
  destruct (Js.test_any uncertaintyWords (clean text));
    apply Qfloor_comp; ring.
Qed.

Lemma simplicity_and_coordination_cancel_witness :
  estimateHoursFn 5 "Simple change with a dependency on billing" = 16%Z.
Proof.
  rewrite (simplicity_and_coordination_cancel
             5 "Simple change with a dependency on billing" 16);
    reflexivity.
Defined.

(** X13. An effort value that the base table does not hold is estimated
    from 8 hours, like 3 story points. *)
Theorem estimateHours_unknown_points (points : Z) (text : string) :
  ~ In points fib ->
  estimateHoursFn points text = estimateHoursFn 3 text.
Proof.
  intros Hnot. unfold estimateHoursFn.
  replace (lookup points base) with (@None Q); [reflexivity|].
  unfold fib in Hnot. simpl in Hnot. unfold base, lookup.
  repeat match goal with
         | |- context [(?k =? points)%Z] =>
             destruct (Z.eqb_spec k points); [exfalso; tauto|]
         end.
  reflexivity.
Qed.

Lemma estimateHours_unknown_points_witness :
  estimateHoursFn 4 "Unknown scope" = estimateHoursFn 3 "Unknown scope".
Proof.
  apply (estimateHours_unknown_points 4 "Unknown scope").
  unfold fib. simpl. intros H.
  repeat (destruct H as [H | H]; [discriminate H|]). exact H.
Defined.

End EstimateMore.

(* ================================================================== *)
(** ** Further properties: the summary of a data set                   *)
(* ================================================================== *)

Module SummaryFacts.
Import Model Server Spec Notions NumFacts.

Lemma countOf_bump_same (k : string) (acc : list (string * nat)) :
  countOf k (bump k acc) = S (countOf k acc).
Proof.
  induction acc as [|[k' n] acc IH]; cbn [bump countOf].
  - now rewrite String.eqb_refl.
  - destruct (k =? k') eqn:E; cbn [countOf]; rewrite E; [reflexivity | exact IH].
Qed.

Lemma countOf_bump_other (k j : string) (acc : list (string * nat)) :
  j <> k -> countOf j (bump k acc) = countOf j acc.
Proof.
  intros Hne. induction acc as [|[k' n] acc IH]; cbn [bump countOf].
  - apply String.eqb_neq in Hne. now rewrite Hne.
  - destruct (k =? k') eqn:E; cbn [countOf].
    + apply String.eqb_eq in E. subst k'.
      apply String.eqb_neq in Hne. now rewrite Hne.
    + now rewrite IH.
Qed.

Lemma keys_bump (k : string) (acc : list (string * nat)) :
  map fst (bump k acc)
  = if existsb (String.eqb k) (map fst acc) then map fst acc
    else (map fst acc ++ [k])%list.
Proof.
  induction acc as [|[k' n] acc IH]; [reflexivity|].
  cbn [bump map fst existsb]. destruct (k =? k') eqn:E; [reflexivity|].
  cbn [map fst orb]. rewrite IH.
  destruct (existsb (String.eqb k) (map fst acc)); reflexivity.
Qed.

Lemma NoDup_bump (k : string) (acc : list (string * nat)) :
  NoDup (map fst acc) -> NoDup (map fst (bump k acc)).
Proof.
  intros H. rewrite keys_bump.
  destruct (existsb (String.eqb k) (map fst acc)) eqn:E; [exact H|].
  apply NoDup_app; [exact H | repeat constructor; intros [] |].
  intros x Hx [Hk | []]. subst x.
  assert (Ht : existsb (String.eqb k) (map fst acc) = true).
  { apply existsb_exists. exists k. split; [exact Hx | apply String.eqb_refl]. }
  congruence.
Qed.

Lemma total_bump (k : string) (acc : list (string * nat)) :
  total (bump k acc) = S (total acc).
Proof.
  induction acc as [|[k' n] acc IH]; [reflexivity|].
  cbn [bump]. unfold total in *.
  destruct (k =? k'); cbn [fold_right snd] in *; lia.
Qed.

Lemma positive_bump (k : string) (acc : list (string * nat)) :
  Forall (fun kv => (0 < snd kv)%nat) acc ->
  Forall (fun kv => (0 < snd kv)%nat) (bump k acc).
Proof.
  induction 1 as [|[k' n] acc Hn Hacc IH]; cbn [bump].
  - repeat constructor.
  - destruct (k =? k'); constructor; cbn [snd] in *; auto; lia.
Qed.

(** The state of the counting loop after the rows [data], from [acc]. *)
Lemma counting_loop (data : list DataRow) (acc : list (string * nat)) :
  let counts := fold_left (fun acc r => bump (Priority r) acc) data acc in
  (NoDup (map fst acc) -> NoDup (map fst counts)) /\
  (forall k, countOf k counts = (countOf k acc + rowsWith k data)%nat) /\
  total counts = (total acc + List.length data)%nat /\
  (Forall (fun kv => (0 < snd kv)%nat) acc ->
   Forall (fun kv => (0 < snd kv)%nat) counts).
Proof.
  revert acc. induction data as [|r data IH]; intros acc; cbn [fold_left].
  - repeat split; auto; intros; unfold rowsWith; cbn; lia.
  - destruct (IH (bump (Priority r) acc)) as (H1 & H2 & H3 & H4).
    repeat split.
    + intros H. now apply H1, NoDup_bump.
    + intros k. rewrite H2. unfold rowsWith. cbn [filter].
      destruct (Priority r =? k) eqn:E.
      * apply String.eqb_eq in E. subst k.
        rewrite countOf_bump_same. cbn [List.length]. lia.
      * rewrite countOf_bump_other; [reflexivity|].
        intros ->. now rewrite String.eqb_refl in E.
    + rewrite H3, total_bump. cbn [List.length]. lia.
    + intros H. now apply H4, positive_bump.
Qed.

(** X14. The priority counts of a data set hold every label once; the
    count of a label is the number of rows with that priority, no count
    is zero, and the counts add up to the number of rows. *)
Theorem priorityCounts_count_rows (data : list DataRow) :
  let counts := priorityCounts (summarizeDataset data) in
  NoDup (map fst counts) /\
  (forall k, countOf k counts = rowsWith k data) /\
  Forall (fun kv => (0 < snd kv)%nat) counts /\
  total counts = List.length data.
Proof.
  cbn [summarizeDataset priorityCounts].
  destruct (counting_loop data []) as (H1 & H2 & H3 & H4).
  repeat split.
  - apply H1. constructor.
  - intros k. now rewrite H2.
  - apply H4. constructor.
  - now rewrite H3.
Qed.

Lemma fold_left_Qplus (l : list Q) (a : Q) :
  fold_left Qplus l a == a + sumQ l.
Proof.
  revert a. induction l as [|x l IH]; intros a; cbn [fold_left sumQ fold_right].
  - ring.
  - rewrite IH. fold (sumQ l). ring.
Qed.

Lemma sumQ_bounds (lo hi : Q) (l : list Q) :
  Forall (fun x => lo <= x <= hi) l ->
  lo * inject_Z (Z.of_nat (List.length l)) <= sumQ l /\
  sumQ l <= hi * inject_Z (Z.of_nat (List.length l)).
Proof.
  induction 1 as [|x l [Hlo Hhi] Hl [IH1 IH2]].
  - cbn. split; ring_simplify; apply Qle_refl.
  - cbn [List.length sumQ fold_right]. fold (sumQ l).
    rewrite Nat2Z.inj_succ. unfold Z.succ. rewrite inject_Z_plus.
    split; ring_simplify.
    + ring_simplify in IH1. lra.
    + ring_simplify in IH2. lra.
Qed.

Lemma avg_empty : avg [] == 0.
Proof. reflexivity. Qed.

Lemma avg_mean (l : list Q) :
  l <> [] -> avg l * inject_Z (Z.of_nat (List.length l)) == sumQ l.
Proof.
  intros Hne. unfold avg.
  assert (Hn : Nat.max 1 (List.length l) = List.length l)
    by (destruct l; [congruence | cbn [List.length]; lia]).
  rewrite Hn, fold_left_Qplus.
  assert (Hpos : 0 < inject_Z (Z.of_nat (List.length l))).
  { destruct l; [congruence|]. cbn [List.length].
    rewrite <- (Zlt_Qlt 0). lia. }
  field. intros E. rewrite E in Hpos. now apply Qlt_irrefl in Hpos.
Qed.

Lemma avg_bounds (lo hi : Q) (l : list Q) :
  l <> [] -> Forall (fun x => lo <= x <= hi) l -> lo <= avg l <= hi.
Proof.
  intros Hne Hall.
  pose proof (avg_mean l Hne) as Hmean.
  destruct (sumQ_bounds lo hi l Hall) as [H1 H2].
  assert (Hpos : 0 < inject_Z (Z.of_nat (List.length l))).
  { destruct l; [congruence|]. cbn [List.length].
    rewrite <- (Zlt_Qlt 0). lia. }
  rewrite <- Hmean in H1, H2. split.
  - apply Qmult_le_r with (z := inject_Z (Z.of_nat (List.length l)));
      assumption.
  - apply Qmult_le_r with (z := inject_Z (Z.of_nat (List.length l)));
      assumption.
Qed.

(** X15. The averages of a summary are the means of the rows: average times
    number of rows is the total, for story points and for hours.  For the
    empty data set both averages are 0, with no division by zero. *)
Theorem summary_averages_are_means (data : list DataRow) :
  (data = [] ->
   avgStoryPoints (summarizeDataset data) == 0 /\
   avgHours (summarizeDataset data) == 0) /\
  (data <> [] ->
   avgStoryPoints (summarizeDataset data)
     * inject_Z (Z.of_nat (List.length data))
   == sumQ (map (fun r => inject_Z (StoryPoints r)) data) /\
   avgHours (summarizeDataset data) * inject_Z (Z.of_nat (List.length data))
   == sumQ (map (fun r => inject_Z (EstimateHours r)) data)).
Proof.
  split.
  - intros ->. split; reflexivity.
  - intros Hne. cbn [summarizeDataset avgStoryPoints avgHours].
    split.
    + rewrite <- (length_map (fun r => inject_Z (StoryPoints r)) data).
      apply avg_mean. destruct data; [congruence | discriminate].
    + rewrite <- (length_map (fun r => inject_Z (EstimateHours r)) data).
      apply avg_mean. destruct data; [congruence | discriminate].
Qed.

(** X16. The averages of a non-empty data set lie within the range of its
    rows: between the least and the greatest story points, and between
    the least and the greatest hours. *)
Theorem summary_averages_within_range
  (data : list DataRow) (loSP hiSP loH hiH : Z) :
  data <> [] ->
  Forall (fun r => (loSP <= StoryPoints r <= hiSP)%Z /\
                   (loH <= EstimateHours r <= hiH)%Z) data ->
  inject_Z loSP <= avgStoryPoints (summarizeDataset data) <= inject_Z hiSP /\
  inject_Z loH <= avgHours (summarizeDataset data) <= inject_Z hiH.
Proof.
  intros Hne Hall. cbn [summarizeDataset avgStoryPoints avgHours].
  split; apply avg_bounds;
    try (destruct data; [congruence | discriminate]);
    apply Forall_map; eapply Forall_impl; try exact Hall;
    intros r [[H1 H2] [H3 H4]]; cbn beta;
    split; rewrite <- Zle_Qle; assumption.
Qed.

Lemma summary_averages_within_range_witness :
  let data :=
    [ {| Row := 1; Summary := "a"; Description := ""; Priority := "Low";
         StoryPoints := 1; EstimateHours := 4; Confidence := 0.5;
         Rationale := "" |};
      {| Row := 2; Summary := "b"; Description := ""; Priority := "High";
         StoryPoints := 8; EstimateHours := 32; Confidence := 0.7;
         Rationale := "" |} ] in
  inject_Z 1 <= avgStoryPoints (summarizeDataset data) <= inject_Z 13 /\
  inject_Z 3 <= avgHours (summarizeDataset data) <= inject_Z 91.
Proof.
  intros data.
  apply (summary_averages_within_range data 1 13 3 91).
  - discriminate.
  - repeat constructor; cbn; lia.
Defined.

End SummaryFacts.

(* ================================================================== *)
(** ** Further properties: the chat resolver                           *)
(* ================================================================== *)

Module ChatMore.
Import Model Server Spec Notions StringFacts NumFacts ChatFacts NormalFacts.

Lemma explainRow_replies
  (showNumber : Q -> string) (ds : list DataRow) (msg : string)
  (r : Response) :
  explainRow showNumber ds msg = Some r -> exists reply, r = Reply reply.
Proof.
  unfold explainRow. destruct (whyMatch msg) as [digits|]; [|discriminate].
  destruct (_ && _)%bool; [|discriminate].
  destruct (nth_error ds _); [|discriminate].
  intros E. injection E as <-. eexists. reflexivity.
Qed.

(** X17. The chat reports an error exactly for a missing message and for a
    message of fewer than two characters after trimming, with or without
    a data set; every other message gets a reply. *)
Theorem chat_error_iff_invalid
  (showNumber : Q -> string) (toFixed : Q -> nat -> string)
  (ds : list DataRow) (message : option string) :
  let valid :=
    match message with
    | Some m => (2 <= String.length (Js.trim m))%nat
    | None => False
    end in
  (valid -> exists reply, chat showNumber toFixed ds message = Reply reply) /\
  (~ valid ->
   chat showNumber toFixed ds message = BadRequest "Message is required.").
Proof.
  intros valid. subst valid. unfold chat.
  destruct message as [m|]; [|split; [intros [] | reflexivity]].
  destruct (m =? "") eqn:Em.
  - apply String.eqb_eq in Em. subst m. split; [cbn; lia | reflexivity].
  - cbn [orb]. destruct (Nat.ltb_spec (String.length (Js.trim m)) 2).
    + split; [lia | reflexivity].
    + split; [|lia]. intros _.
      destruct ds as [|r ds']; [eexists; reflexivity|].
      destruct (explainRow showNumber (r :: ds') (Js.toLowerCase m)) eqn:E.
      * now apply explainRow_replies in E.
      * apply laterIntents_replies.
Qed.

Lemma chat_error_iff_invalid_witness :
  chat (fun _ => "0.9") (fun _ _ => "1.00") [] (Some " ?  ")
  = BadRequest "Message is required.".
Proof.
  apply (chat_error_iff_invalid (fun _ => "0.9") (fun _ _ => "1.00")
           [] (Some " ?  ")).
  vm_compute. lia.
Defined.

(** X18. A message that matches the "why N" pattern with N between 1 and
    the number of rows is answered with the explanation of row N, before
    any other intent is tried. *)
Theorem why_in_range_explains
  (showNumber : Q -> string) (toFixed : Q -> nat -> string)
  (ds : list DataRow) (message digits : string) :
  whyMatch (Js.toLowerCase message) = Some digits ->
  (1 <= parseInt digits <= Z.of_nat (List.length ds))%Z ->
  exists row,
    nth_error ds (Z.to_nat (parseInt digits - 1)) = Some row /\
    chat showNumber toFixed ds (Some message)
    = Reply (explainPrediction showNumber row).
Proof.
  intros Hwhy [Hlo Hhi].
  pose proof (whyMatch_valid message digits Hwhy) as Hlen.
  destruct (nth_error ds (Z.to_nat (parseInt digits - 1))) as [row|] eqn:En.
  2:{ apply nth_error_None in En. lia. }
  exists row. split; [reflexivity|]. unfold chat.
  destruct (message =? "") eqn:E.
  { apply String.eqb_eq in E. subst message. discriminate Hwhy. }
  replace (String.length (Js.trim message) <? 2)%nat with false
    by (symmetry; apply Nat.ltb_ge; lia).
  cbn [orb]. destruct ds as [|r ds']; [cbn in Hhi; lia|].
  unfold explainRow. rewrite Hwhy.
  replace ((0 <=? parseInt digits - 1)
           && (parseInt digits - 1 <? Z.of_nat (List.length (r :: ds'))))%Z
    with true.
  - now rewrite En.
  - symmetry. apply andb_true_iff. split; [apply Z.leb_le | apply Z.ltb_lt]; lia.
Qed.

Lemma why_in_range_explains_witness :
  exists row,
    nth_error
      [ {| Row := 1; Summary := "a"; Description := ""; Priority := "Low";
           StoryPoints := 1; EstimateHours := 4; Confidence := 0.5;
           Rationale := "r1" |};
        {| Row := 2; Summary := "b"; Description := ""; Priority := "High";
           StoryPoints := 8; EstimateHours := 32; Confidence := 0.7;
           Rationale := "r2" |} ]
      (Z.to_nat (parseInt "2" - 1)) = Some row /\
    chat (fun _ => "0.7") (fun _ _ => "1.00")
      [ {| Row := 1; Summary := "a"; Description := ""; Priority := "Low";
           StoryPoints := 1; EstimateHours := 4; Confidence := 0.5;
           Rationale := "r1" |};
        {| Row := 2; Summary := "b"; Description := ""; Priority := "High";
           StoryPoints := 8; EstimateHours := 32; Confidence := 0.7;
           Rationale := "r2" |} ]
      (Some "Tell me WHY record 2 is high")
    = Reply (explainPrediction (fun _ => "0.7") row).
Proof.
  apply (why_in_range_explains (fun _ => "0.7") (fun _ _ => "1.00") _
           "Tell me WHY record 2 is high" "2").
  - reflexivity.
  - vm_compute. split; discriminate.
Defined.

Lemma is_space_lower (c : ascii) :
  Js.is_space (Js.toLowerChar c) = Js.is_space c.
Proof. destruct c as [[] [] [] [] [] [] [] []]; vm_compute; reflexivity. Qed.

Lemma trimStart_lower (s : string) :
  Js.trimStart (Js.toLowerCase s) = Js.toLowerCase (Js.trimStart s).
Proof.
  induction s as [|c s IH]; [reflexivity|].
  cbn [Js.toLowerCase Js.trimStart]. rewrite is_space_lower.
  destruct (Js.is_space c); [exact IH | reflexivity].
Qed.

Lemma trimEnd_lower (s : string) :
  Js.trimEnd (Js.toLowerCase s) = Js.toLowerCase (Js.trimEnd s).
Proof.
  induction s as [|c s IH]; [reflexivity|].
  cbn [Js.toLowerCase Js.trimEnd]. rewrite IH, is_space_lower.
  destruct (Js.trimEnd s); cbn [Js.toLowerCase];
    [destruct (Js.is_space c); reflexivity | reflexivity].
Qed.

Lemma length_lower (s : string) :
  String.length (Js.toLowerCase s) = String.length s.
Proof. induction s as [|c s IH]; cbn; [reflexivity | now rewrite IH]. Qed.

(** *** The order of the "top risky" list *)








(** *** Numbers in messages *)

Lemma parse_digits_acc (d : Decimal.uint) (acc : positive) :
  fold_left (fun a c => (10 * a + (Z.of_N (Js.code c) - 48))%Z)
    (list_ascii_of_string (NilEmpty.string_of_uint d)) (Z.pos acc)
  = Z.pos (Pos.of_uint_acc d acc).
Proof.
  revert acc. induction d; intros acc;
    cbn [NilEmpty.string_of_uint list_ascii_of_string fold_left
         Pos.of_uint_acc];
    try reflexivity;
    rewrite <- IHd; f_equal;
    match goal with
    | |- context [Z.of_N (Js.code ?c)] =>
        let v := eval vm_compute in (Z.of_N (Js.code c)) in
        change (Z.of_N (Js.code c)) with v
    end; lia.
Qed.

Lemma parseInt_string_of_uint (d : Decimal.uint) :
  parseInt (NilEmpty.string_of_uint d) = Z.of_N (Pos.of_uint d).
Proof.
  unfold parseInt. induction d;
    cbn [NilEmpty.string_of_uint list_ascii_of_string fold_left Pos.of_uint];
    try reflexivity;
    try exact IHd;
    apply (parse_digits_acc d).
Qed.

Lemma allDigits_string_of_uint (d : Decimal.uint) :
  allDigits (NilEmpty.string_of_uint d) = true.
Proof. induction d; cbn; try reflexivity; exact IHd. Qed.

Lemma show_int_nat (n : nat) :
  parseInt (Js.show_int (Z.of_nat n)) = Z.of_nat n /\
  allDigits (Js.show_int (Z.of_nat n)) = true /\
  Js.show_int (Z.of_nat n) <> "".
Proof.
  unfold Js.show_int. destruct (Z.of_nat n) as [|p|p] eqn:E; [| |lia].
  - repeat split; discriminate.
  - cbn [Z.to_int NilEmpty.string_of_int]. repeat split.
    + now rewrite parseInt_string_of_uint, DecimalPos.Unsigned.of_to.
    + apply allDigits_string_of_uint.
    + pose proof (DecimalPos.Unsigned.to_uint_nonnil p) as H.
      destruct (Pos.to_uint p); [congruence | discriminate..].
Qed.

Lemma takeDigits_all (digits : string) :
  allDigits digits = true -> takeDigits digits = digits.
Proof.
  induction digits as [|c r IH]; [reflexivity|].
  cbn [allDigits takeDigits]. intros H.
  apply andb_true_iff in H. destruct H as [Hc Hr].
  now rewrite Hc, (IH Hr).
Qed.

Lemma digit_facts (c : ascii) :
  Js.is_digit c = true ->
  Js.is_space c = false /\ Js.toLowerChar c = c /\
  Ascii.eqb "r" c = false /\ Ascii.eqb "i" c = false.
Proof.
  destruct c as [[] [] [] [] [] [] [] []]; vm_compute;
    intros H; try discriminate H; repeat split.
Qed.

Lemma allDigits_lower (digits : string) :
  allDigits digits = true -> Js.toLowerCase digits = digits.
Proof.
  induction digits as [|c r IH]; [reflexivity|].
  cbn [allDigits Js.toLowerCase]. intros H.
  apply andb_true_iff in H. destruct H as [Hc Hr].
  destruct (digit_facts c Hc) as (_ & -> & _). now rewrite (IH Hr).
Qed.

(** The message "why", a space and a number is read as that number. *)
Lemma whyMatch_number (digits : string) :
  allDigits digits = true -> digits <> "" ->
  whyMatch ("why " ++ digits) = Some digits.
Proof.
  intros Hall Hne. destruct digits as [|c r]; [congruence|].
  pose proof Hall as Hall'. cbn [allDigits] in Hall'.
  apply andb_true_iff in Hall'. destruct Hall' as [Hc Hr].
  destruct (digit_facts c Hc) as (Hsp & _ & Hr' & Hi').
  cbn [append whyMatch Js.startsWith Ascii.eqb Bool.eqb andb Js.drop].
  unfold whyTail.
  change (Js.is_space " ") with true. cbn iota.
  cbn [Js.trimStart]. change (Js.is_space " ") with true. cbn iota.
  rewrite Hsp.
  cbn [Js.startsWith]. rewrite Hr', Hi'. cbn [andb orElse].
  unfold digitsAt. rewrite (takeDigits_all _ Hall). reflexivity.
Qed.

Lemma why_number_explains
  (showNumber : Q -> string) (toFixed : Q -> nat -> string)
  (ds : list DataRow) (k : nat) (row : DataRow) :
  nth_error ds k = Some row ->
  chat showNumber toFixed ds (Some ("Why " ++ Js.show_int (Z.of_nat (S k))))
  = Reply (explainPrediction showNumber row).
Proof.
  intros Hk.
  destruct (show_int_nat (S k)) as (Hparse & Hall & Hne).
  set (digits := Js.show_int (Z.of_nat (S k))) in *.
  assert (Hlen : (k < List.length ds)%nat)
    by (apply nth_error_Some; congruence).
  assert (Hwhy : whyMatch (Js.toLowerCase ("Why " ++ digits)) = Some digits).
  { rewrite toLowerCase_app, (allDigits_lower _ Hall).
    now apply whyMatch_number. }
  pose proof (whyMatch_valid _ _ Hwhy) as Hvalid.
  unfold chat.
  replace (String.length (Js.trim ("Why " ++ digits)) <? 2)%nat with false
    by (symmetry; apply Nat.ltb_ge; lia).
  change ("Why " ++ digits =? "") with false. cbn [orb].
  destruct ds as [|r ds']; [cbn in Hlen; lia|].
  unfold explainRow. rewrite Hwhy, Hparse.
  replace (Z.of_nat (S k) - 1)%Z with (Z.of_nat k) by lia.
  replace ((0 <=? Z.of_nat k)
           && (Z.of_nat k <? Z.of_nat (List.length (r :: ds'))))%Z with true.
  - now rewrite Nat2Z.id, Hk.
  - symmetry. apply andb_true_iff. split; [apply Z.leb_le | apply Z.ltb_lt]; lia.
Qed.

(** X21. Asking "Why k" for the k-th row of the data set, with k written in
    decimal, is answered with the explanation of that row. *)
Theorem why_number_round_trip
  (showNumber : Q -> string) (toFixed : Q -> nat -> string)
  (ds : list DataRow) (k : nat) (row : DataRow) :
  nth_error ds k = Some row ->
  chat showNumber toFixed ds (Some ("Why " ++ Js.show_int (Z.of_nat (S k))))
  = Reply (explainPrediction showNumber row).
Proof. apply why_number_explains. Qed.

Lemma why_number_round_trip_witness :
  chat (fun _ => "0.7") (fun _ _ => "1.00")
    [ {| Row := 1; Summary := "a"; Description := ""; Priority := "Low";
         StoryPoints := 1; EstimateHours := 4; Confidence := 0.5;
         Rationale := "r1" |};
      {| Row := 2; Summary := "b"; Description := ""; Priority := "High";
         StoryPoints := 8; EstimateHours := 32; Confidence := 0.7;
         Rationale := "r2" |} ]
    (Some ("Why " ++ Js.show_int (Z.of_nat 2)))
  = Reply "Row 2: Priority High (confidence 0.7). r2".
Proof.
  apply (why_number_round_trip (fun _ => "0.7") (fun _ _ => "1.00") _ 1
           {| Row := 2; Summary := "b"; Description := ""; Priority := "High";
              StoryPoints := 8; EstimateHours := 32; Confidence := 0.7;
              Rationale := "r2" |}).
  reflexivity.
Defined.

End ChatMore.

(* ================================================================== *)
(** ** Further properties: uploads and the state of the server         *)
(* ================================================================== *)

Module AppFacts.
Import Model Server App Spec Notions StringFacts PredictFacts ChatMore.

Lemma trimStart_allSpaces (s : string) :
  allSpaces s = true -> Js.trimStart s = "".
Proof.
  induction s as [|c s IH]; [reflexivity|].
  cbn [allSpaces Js.trimStart]. intros H.
  apply andb_true_iff in H. destruct H as [Hc Hs]. now rewrite Hc, IH.
Qed.

Lemma allSpaces_app (a b : string) :
  allSpaces (a ++ b) = allSpaces a && allSpaces b.
Proof.
  induction a as [|c a IH]; [reflexivity|].
  cbn [append allSpaces]. now rewrite IH, andb_assoc.
Qed.

Lemma blank_rowText (rec : TextRecord) :
  allSpaces (summary rec) = true -> allSpaces (description rec) = true ->
  rowText rec = "".
Proof.
  intros Hs Hd. unfold rowText, Js.trim.
  rewrite trimStart_allSpaces; [reflexivity|].
  now rewrite !allSpaces_app, Hs, Hd.
Qed.

Lemma blank_row (model : ModelT) (idx : nat) (rec : TextRecord) :
  allSpaces (summary rec) = true -> allSpaces (description rec) = true ->
  predictRow model idx rec =
  ([], {| Row := idx + 1;
          Summary := summary rec;
          Description := description rec;
          Priority := "Low";
          StoryPoints := 1;
          EstimateHours := 4;
          Confidence := 0.4;
          Rationale :=
            "No text provided. Falling back to conservative defaults." |}).
Proof.
  intros Hs Hd. unfold predictRow.
  rewrite (blank_rowText rec Hs Hd).
  now rewrite (predictRecord_traced_empty model "" eq_refl).
Qed.

(** X22. A record whose summary and description hold white space only gets
    the fixed conservative result (Low, 1 point, 4 hours, confidence 0.4)
    with no call to the classifier or the scorer, under every model. *)
Theorem blank_record_gets_defaults
  (model : ModelT) (idx : nat) (rec : TextRecord) :
  allSpaces (summary rec) = true -> allSpaces (description rec) = true ->
  fst (predictRow model idx rec) = [] /\
  Priority (snd (predictRow model idx rec)) = "Low" /\
  StoryPoints (snd (predictRow model idx rec)) = 1%Z /\
  EstimateHours (snd (predictRow model idx rec)) = 4%Z /\
  Confidence (snd (predictRow model idx rec)) = 0.4.
Proof.
  intros Hs Hd. rewrite (blank_row model idx rec Hs Hd).
  repeat split.
Qed.

Lemma blank_record_gets_defaults_witness :
  fst (predictRow (constantModel [("Critical", 1)]) 0
         {| summary := "   "; description := Js.nl |}) = [] /\
  Priority (snd (predictRow (constantModel [("Critical", 1)]) 0
                   {| summary := "   "; description := Js.nl |})) = "Low".
Proof.
  destruct (blank_record_gets_defaults (constantModel [("Critical", 1)]) 0
              {| summary := "   "; description := Js.nl |}
              eq_refl eq_refl) as (H1 & H2 & _).
  now split.
Defined.


Lemma predictRow_fields (model : ModelT) (idx : nat) (rec : TextRecord) :
  let row := snd (predictRow model idx rec) in
  Row row = S idx /\
  Summary row = summary rec /\
  Description row = description rec /\
  Priority row = priority (predictRecord model (rowText rec)) /\
  StoryPoints row = storyPoints (predictRecord model (rowText rec)) /\
  EstimateHours row = estimateHours (predictRecord model (rowText rec)) /\
  Confidence row = confidence (predictRecord model (rowText rec)) /\
  Rationale row = rationale (predictRecord model (rowText rec)).
Proof.
  unfold predictRow, predictRecord.
  destruct (predictRecord_traced model (rowText rec)) as [log result].
  cbn. repeat split. lia.
Qed.

Lemma augmentFrom_numbered (model : ModelT) (records : list CsvRecord) :
  forall idx, numberedFrom idx (augmentFrom model idx records).
Proof.
  induction records as [|r records IH]; intros idx; [exact I|].
  cbn [augmentFrom numberedFrom]. split; [|apply IH].
  apply (predictRow_fields model idx (textRecordOf r)).
Qed.


(** X23. An upload that is rejected with status 400 leaves the data set as
    it was.  It is rejected when no file is attached, when the file name
    does not end in .csv (in any letter case), when the CSV has no data
    row, and when the first record has neither a summary nor a
    description column (in any letter case). *)
Theorem rejected_upload_keeps_dataset
  (model : ModelT) (parse : string -> option (list CsvRecord))
  (toCsv : list string -> list DataRow -> option string)
  (ds : list DataRow) (file : option File) (error : string) :
  snd (predict model parse toCsv ds file) = Rejected error ->
  fst (predict model parse toCsv ds file) = ds /\
  (file = None \/
   exists f, file = Some f /\
     (endsWith ".csv" (Js.toLowerCase (originalname f)) = false \/
      parse (buffer f) = Some [] \/
      exists first rest,
        parse (buffer f) = Some (first :: rest) /\
        hasColumn "summary" (map fst first) = false /\
        hasColumn "description" (map fst first) = false)).
Proof.
  unfold predict. destruct file as [f|]; [|intros _; now split; [|left]].
  destruct (endsWith ".csv" (Js.toLowerCase (originalname f))) eqn:Ename;
    cbn [negb].
  2:{ intros _. split; [reflexivity|]. right. exists f. auto. }
  destruct (parse (buffer f)) as [[|first rest]|] eqn:Eparse.
  - intros _. split; [reflexivity|]. right. exists f. auto.
  - destruct (hasColumn "summary" (map fst first)) eqn:Es;
      destruct (hasColumn "description" (map fst first)) eqn:Ed;
      cbn [negb andb];
      try (destruct (toCsv csvFields _); discriminate).
    intros _. split; [reflexivity|]. right. exists f. split; [reflexivity|].
    right. right. now exists first, rest.
  - discriminate.
Qed.

Lemma rejected_upload_keeps_dataset_witness :
  fst (predict failingModel (fun _ => Some []) (fun _ _ => Some "")
         [] (Some {| originalname := "backlog.xlsx"; buffer := "" |})) = [].
Proof.
  apply (rejected_upload_keeps_dataset failingModel (fun _ => Some [])
           (fun _ _ => Some "") []
           (Some {| originalname := "backlog.xlsx"; buffer := "" |})
           "Invalid file type. Only .csv files are accepted.").
  reflexivity.
Defined.



Lemma get_none_cell (k1 k2 : string) (rec : CsvRecord) :
  get k1 rec = None -> get k2 rec = None -> cell k1 k2 rec = "".
Proof. intros H1 H2. unfold cell. now rewrite H1, H2. Qed.

(** X25. The check of the header ignores letter case, the cells are read
    under the names Summary, summary, Description and description only.
    A record with none of these four keys, such as one under a header
    SUMMARY, is read as empty text and gets the fixed conservative
    result. *)
Theorem other_spelling_reads_empty
  (model : ModelT) (idx : nat) (rec : CsvRecord) :
  get "Summary" rec = None -> get "summary" rec = None ->
  get "Description" rec = None -> get "description" rec = None ->
  let row := snd (predictRow model idx (textRecordOf rec)) in
  Summary row = "" /\ Description row = "" /\
  Priority row = "Low" /\ StoryPoints row = 1%Z /\
  EstimateHours row = 4%Z /\ Confidence row = 0.4.
Proof.
  intros H1 H2 H3 H4 row. subst row.
  assert (Hrec : textRecordOf rec = {| summary := ""; description := "" |}).
  { unfold textRecordOf. now rewrite !get_none_cell. }
  rewrite Hrec.
  rewrite (blank_row model idx {| summary := ""; description := "" |}
             eq_refl eq_refl).
  repeat split.
Qed.

Lemma other_spelling_reads_empty_witness :
  hasColumn "summary" (map fst [("SUMMARY", "Payment outage in production")])
  = true /\
  Priority
    (snd (predictRow (constantModel [("Critical", 1)]) 0
            (textRecordOf [("SUMMARY", "Payment outage in production")])))
  = "Low".
Proof.
  split; [reflexivity|].
  apply (other_spelling_reads_empty (constantModel [("Critical", 1)]) 0
           [("SUMMARY", "Payment outage in production")]);
    reflexivity.
Defined.

Lemma predict_numbered
  (model : ModelT) (parse : string -> option (list CsvRecord))
  (toCsv : list string -> list DataRow -> option string)
  (ds : list DataRow) (file : option File) :
  numberedFrom 0 ds ->
  numberedFrom 0 (fst (predict model parse toCsv ds file)).
Proof.
  intros Hds. unfold predict. destruct file as [f|]; [|exact Hds].
  destruct (negb _); [exact Hds|].
  destruct (parse (buffer f)) as [[|first rest]|]; try exact Hds.
  destruct (_ && _)%bool; [exact Hds|].
  cbv zeta. destruct (toCsv csvFields _); apply augmentFrom_numbered.
Qed.

Lemma handle_numbered
  (model : ModelT) (parse : string -> option (list CsvRecord))
  (toCsv : list string -> list DataRow -> option string)
  (showNumber : Q -> string) (toFixed : Q -> nat -> string)
  (ds : list DataRow) (request : Request) :
  numberedFrom 0 ds ->
  numberedFrom 0 (fst (handle model parse toCsv showNumber toFixed ds request)).
Proof.
  intros Hds. destruct request as [|file|message|]; cbn [handle fst].
  - exact Hds.
  - pose proof (predict_numbered model parse toCsv ds file Hds) as H.
    destruct (predict model parse toCsv ds file). exact H.
  - exact Hds.
  - exact I.
Qed.

Lemma numbered_nth (rows : list DataRow) :
  forall start k row,
    numberedFrom start rows -> nth_error rows k = Some row ->
    Row row = S (start + k).
Proof.
  induction rows as [|r rows IH]; intros start k row Hn Hk.
  - destruct k; discriminate Hk.
  - destruct Hn as [Hr Hrest]. destruct k as [|k]; cbn [nth_error] in Hk.
    + injection Hk as <-. now rewrite Nat.add_0_r.
    + rewrite (IH (S start) k row Hrest Hk). lia.
Qed.

(** X26. From the empty data set of the start, after any sequence of
    requests (ping, upload, chat, clear), the rows of the data set are
    numbered 1, 2, 3, ... in their order: the row that "why N" explains is
    the row whose number is N. *)
Theorem dataset_rows_stay_numbered
  (model : ModelT) (parse : string -> option (list CsvRecord))
  (toCsv : list string -> list DataRow -> option string)
  (showNumber : Q -> string) (toFixed : Q -> nat -> string)
  (requests : list Request) :
  let ds := serve model parse toCsv showNumber toFixed [] requests in
  numberedFrom 0 ds /\
  (forall k row, nth_error ds k = Some row -> Row row = S k) /\
  (forall k row,
     nth_error ds k = Some row ->
     chat showNumber toFixed ds
       (Some ("Why " ++ Js.show_int (Z.of_nat (Row row))))
     = Reply (explainPrediction showNumber row)).
Proof.
  intros ds.
  assert (Hn : numberedFrom 0 ds).
  { subst ds. unfold serve.
    assert (G : forall rs state, numberedFrom 0 state ->
              numberedFrom 0
                (fold_left
                   (fun state request =>
                      fst (handle model parse toCsv showNumber toFixed
                             state request)) rs state)).
    { induction rs as [|r rs IH]; intros state Hs; [exact Hs|].
      cbn [fold_left]. apply IH. now apply handle_numbered. }
    apply G. exact I. }
  split; [exact Hn|]. split.
  - intros k row Hk. apply (numbered_nth ds 0 k row Hn Hk).
  - intros k row Hk. rewrite (numbered_nth ds 0 k row Hn Hk). cbn [Nat.add].
    now apply why_number_explains.
Qed.

(** X27. After a clear, every valid message is answered with the fixed
    no-data-set reply, whatever it asks, and pings and chats in between do
    not change that: no intent is tried without a data set. *)
Theorem cleared_server_has_no_dataset
  (model : ModelT) (parse : string -> option (list CsvRecord))
  (toCsv : list string -> list DataRow -> option string)
  (showNumber : Q -> string) (toFixed : Q -> nat -> string)
  (ds : list DataRow) (requests : list Request) (message : string) :
  Forall (fun request =>
            match request with Predict _ => False | _ => True end)
         requests ->
  (2 <= String.length (Js.trim message))%nat ->
  chat showNumber toFixed
    (serve model parse toCsv showNumber toFixed ds (Clear :: requests))
    (Some message)
  = Reply noDatasetReply.
Proof.
  intros Hreq Hvalid.
  assert (Hempty : serve model parse toCsv showNumber toFixed ds
                     (Clear :: requests) = []).
  { unfold serve. cbn [fold_left handle fst].
    induction Hreq as [|r rs Hr Hrs IH]; [reflexivity|].
    cbn [fold_left]. destruct r as [|file|m|]; cbn [handle fst];
      [exact IH | destruct Hr | exact IH | exact IH]. }
  rewrite Hempty. unfold chat.
  destruct (message =? "") eqn:E.
  { apply String.eqb_eq in E. subst message. cbn in Hvalid. lia. }
  replace (String.length (Js.trim message) <? 2)%nat with false
    by (symmetry; apply Nat.ltb_ge; lia).
  reflexivity.
Qed.

Lemma cleared_server_has_no_dataset_witness :
  chat (fun _ => "0.9") (fun _ _ => "1.00")
    (serve failingModel (fun _ => None) (fun _ _ => None)
       (fun _ => "0.9") (fun _ _ => "1.00")
       [ {| Row := 1; Summary := "a"; Description := ""; Priority := "Low";
            StoryPoints := 1; EstimateHours := 4; Confidence := 0.5;
            Rationale := "r1" |} ]
       [Clear; Ping; Chat (Some "help")])
    (Some "Priority distribution")
  = Reply noDatasetReply.
Proof.
  apply (cleared_server_has_no_dataset failingModel (fun _ => None)
           (fun _ _ => None) (fun _ => "0.9") (fun _ _ => "1.00")
           _ [Ping; Chat (Some "help")] "Priority distribution").
  - repeat constructor.
  - vm_compute. lia.
Defined.

End AppFacts.


(* ================================================================== *)
(** ** The short circuit of the prediction                             *)
(* ================================================================== *)

Module ShortCircuit.
Import Model Server Spec Notions StringFacts PredictFacts NormalFacts.





End ShortCircuit.
